(** * Video controller: a shallow embedding of [src/controllers/video.controller.js]

    The six request handlers ([getAllVideos], [publishAVideo], [getVideoById],
    [updateVideo], [deleteVideo], [togglePublishStatus]) are written as
    programs over the calls they await (the document database and the media
    store).  The collaborators are given a reference semantics over an explicit
    [World]; a schedule of interferences lets another request run between two
    awaited calls, which is the only place where JavaScript interleaves. *)

From Stdlib Require Import List String Ascii ZArith Bool Lia Arith Sorted.
Import ListNotations.
Local Open Scope string_scope.
Local Open Scope list_scope.
Local Open Scope Z_scope.

Set Implicit Arguments.

(** ** JavaScript values the handlers inspect *)

Module Js.

(** [if (s)] on a value that is a string or [undefined]. *)
Definition truthy (s : option string) : bool :=
  match s with
  | None => false
  | Some "" => false
  | Some _ => true
  end.

(** A string is kept as its UTF-8 bytes.  The white space and line
    terminators removed by [String.prototype.trim] are, by encoded length:
    U+0009 to U+000D and U+0020 (one byte); U+00A0 (two bytes); U+1680, U+2000
    to U+200A, U+2028, U+2029, U+202F, U+205F, U+3000 and U+FEFF (three
    bytes). *)
Definition isSpace (c : ascii) : bool :=
  let n := nat_of_ascii c in
  ((9 <=? n) && (n <=? 13))%nat || (n =? 32)%nat.

Definition isSpace2 (a b : ascii) : bool :=
  ((nat_of_ascii a =? 194) && (nat_of_ascii b =? 160))%nat.

Definition isSpace3 (a b c : ascii) : bool :=
  let x := nat_of_ascii a in
  let y := nat_of_ascii b in
  let z := nat_of_ascii c in
  (((x =? 225) && (y =? 154) && (z =? 128))
   || ((x =? 226) && (y =? 128)
       && (((128 <=? z) && (z <=? 138)) || (z =? 168) || (z =? 169) || (z =? 175)))
   || ((x =? 226) && (y =? 129) && (z =? 159))
   || ((x =? 227) && (y =? 128) && (z =? 128))
   || ((x =? 239) && (y =? 187) && (z =? 191)))%nat.

(** Drops the white space a string starts with; [two] and [three] recognise
    the encodings of two and three bytes in the order the bytes come. *)
Fixpoint strip (two : ascii -> ascii -> bool) (three : ascii -> ascii -> ascii -> bool)
         (s : string) : string :=
  match s with
  | EmptyString => EmptyString
  | String a r1 =>
      if isSpace a then strip two three r1
      else
        match r1 with
        | EmptyString => s
        | String b r2 =>
            if two a b then strip two three r2
            else
              match r2 with
              | EmptyString => s
              | String c r3 => if three a b c then strip two three r3 else s
              end
        end
  end.

Definition trimStart (s : string) : string := strip isSpace2 isSpace3 s.

Fixpoint rev_string (acc s : string) : string :=
  match s with
  | String c r => rev_string (String c acc) r
  | EmptyString => acc
  end.

(** The same from the end: the reversed string shows each encoding with its
    bytes in reverse order. *)
Definition trimEnd (s : string) : string :=
  rev_string "" (strip (fun a b => isSpace2 b a) (fun a b c => isSpace3 c b a)
                       (rev_string "" s)).

Definition trim (s : string) : string := trimEnd (trimStart s).

Definition isDigit (c : ascii) : bool :=
  let n := nat_of_ascii c in ((48 <=? n) && (n <=? 57))%nat.

Definition digitVal (c : ascii) : Z := Z.of_nat (nat_of_ascii c) - 48.

(** Longest decimal prefix; [None] when there is no digit at all. *)
Fixpoint digits (acc : option Z) (s : string) : option Z :=
  match s with
  | String c r =>
      if isDigit c
      then digits (Some (10 * match acc with Some a => a | None => 0 end + digitVal c)) r
      else acc
  | EmptyString => acc
  end.

(** The numbers [parseInt] can return. *)
Inductive number :=
| NaN
| Infinity
| NegInfinity
| Num (z : Z).

(** An integer as the nearest double: exact up to 53 significant bits, beyond
    that rounded to 53 bits with ties to even, and infinite from 2^1024 on. *)
Definition toNumber (n : Z) : number :=
  let a := Z.abs n in
  let bits := Z.log2 a + 1 in
  if bits <=? 53 then Num n
  else
    let e := bits - 53 in
    let q := Z.shiftr a e in
    let r := a - Z.shiftl q e in
    let half := Z.shiftl 1 (e - 1) in
    let q' := if (half <? r) || ((r =? half) && Z.odd q) then q + 1 else q in
    let m := Z.shiftl q' e in
    if 2 ^ 1024 <=? m
    then (if n <? 0 then NegInfinity else Infinity)
    else Num (Z.sgn n * m).

(** [parseInt(s, 10)]: leading white space, a sign, then the longest run of
    digits; [NaN] when there is none. *)
Definition parseInt (s : string) : number :=
  let value (negative : bool) (r : string) :=
    match digits None r with
    | Some n => toNumber (if negative then - n else n)
    | None => NaN
    end in
  match trimStart s with
  | String "-" r => value true r
  | String "+" r => value false r
  | t => value false t
  end.

Definition isHex (c : ascii) : bool :=
  let n := nat_of_ascii c in
  isDigit c || ((65 <=? n) && (n <=? 70))%nat || ((97 <=? n) && (n <=? 102))%nat.

Definition lower (c : ascii) : ascii :=
  let n := nat_of_ascii c in
  if ((65 <=? n) && (n <=? 90))%nat then ascii_of_nat (n + 32) else c.

Fixpoint all (p : ascii -> bool) (s : string) : bool :=
  match s with
  | String c r => p c && all p r
  | EmptyString => true
  end.

Fixpoint map (f : ascii -> ascii) (s : string) : string :=
  match s with
  | String c r => String (f c) (map f r)
  | EmptyString => EmptyString
  end.

End Js.

(** ** Identifiers

    An ObjectId is kept as its 24 digit hexadecimal text.
    [isValidObjectId] is mongoose's test on a string or [undefined];
    [toObjectId] is the cast [new mongoose.Types.ObjectId(s)] followed by
    [toString()], which prints lower case. *)

Abbreviation ObjectId := string (only parsing).

(** Modelled from the spec: mongoose's [isValidObjectId] is a library call;
    the specification asks for a syntactically valid identifier, taken here
    as 24 hexadecimal digits. *)
Definition isValidObjectId (v : option string) : bool :=
  match v with
  | Some s => (String.length s =? 24)%nat && Js.all Js.isHex s
  | None => false
  end.

(** Modelled from the spec: the cast of a string to an identifier is
    mongoose's; two spellings that differ in letter case name one identifier. *)
Definition toObjectId (s : string) : ObjectId := Js.map Js.lower s.

(** ** Data model (the collections the controller touches) *)

Record Asset := { url : string; public_id : string }.

Record Video := {
  _id : ObjectId;
  title : string;
  description : string;
  duration : Z;
  videoFile : Asset;
  thumbnail : Asset;
  views : Z;
  isPublished : bool;
  owner : ObjectId;
  createdAt : Z
}.

Record User := {
  user_id : ObjectId;
  username : string;
  avatar : Asset;
  watchHistory : list ObjectId
}.

Record Like := { like_video : ObjectId; likedBy : ObjectId }.

Record Comment := { comment_video : ObjectId; content : string; comment_owner : ObjectId }.

Record Subscription := { subscriber : ObjectId; channel : ObjectId }.

(** ** Requests *)

(** [req.query] of the list endpoint: every entry is a string or absent. *)
Record ListQuery := {
  page : option string;
  limit : option string;
  query : option string;
  sortBy : option string;
  sortType : option string;
  userId : option string
}.

Record Body := { body_title : option string; body_description : option string }.

(** A file staged by the upload middleware. *)
Record File := { path : string }.

(** [req.files]: one optional array per multipart field. *)
Record Files := {
  files_videoFile : option (list File);
  files_thumbnail : option (list File)
}.

Record Request := {
  req_query : ListQuery;
  req_body : Body;
  req_videoId : string;               (* req.params.videoId *)
  req_files : option Files;           (* req.files *)
  req_file : option File;             (* req.file *)
  req_user : option ObjectId          (* req.user?._id *)
}.

(** ** Aggregation documents *)

Record OwnerSummary := { os_id : ObjectId; os_username : string; os_avatar_url : string }.

(** A document travelling through the list pipeline. *)
Record Doc := { doc : Video; ownerDetails : list OwnerSummary }.

Inductive Stage :=
| Search (index q : string) (paths : list string)       (* $search *)
| MatchOwner (o : ObjectId)                             (* $match: { owner } *)
| MatchIsPublished (b : bool)                           (* $match: { isPublished } *)
| Sort (field : string) (dir : Z)                       (* $sort: { [field]: dir } *)
| LookupOwnerDetails                                    (* $lookup ... as ownerDetails *)
| UnwindOwnerDetails.                                   (* $unwind: "$ownerDetails" *)

Record PaginateOptions := { opt_page : Js.number; opt_limit : Js.number }.

Record Page := {
  docs : list Doc;
  totalDocs : Z;
  page_limit : Z;
  page_no : Z;
  totalPages : Z
}.

Record OwnerDetail := {
  od_id : ObjectId;
  od_username : string;
  od_avatar_url : string;
  subscribersCount : Z;
  isSubscribed : bool
}.

(** The document projected by the detail pipeline. *)
Record DetailDoc := {
  d_id : ObjectId;
  d_videoFile_url : string;
  d_title : string;
  d_description : string;
  d_views : Z;
  d_createdAt : Z;
  d_duration : Z;
  d_owner : option OwnerDetail;
  likesCount : Z;
  isLiked : bool
}.

(** ** Responses and exceptions *)

Inductive Data :=
| DUndefined
| DNull
| DPage (p : Page)
| DVideo (v : Video)
| DDetail (d : DetailDoc)
| DFlag (flag : bool).                                  (* { isPublished: flag } *)

Record ApiResponse := {
  statusCode : Z;
  data : Data;
  message : string;
  success : bool
}.

(** Modelled from the spec: [utils/ApiResponse.js] is not part of the sources;
    the envelope is {statusCode, data, message, success}. *)
Definition newApiResponse (code : Z) (d : Data) (msg : string) : ApiResponse :=
  {| statusCode := code; data := d; message := msg; success := code <? 400 |}.

(** [res.status(s).json(b)] *)
Record Response := { status : Z; json : ApiResponse }.

Inductive Exn :=
| ApiError (code : Z) (msg : string)
| TypeError (msg : string)
| SchemaError (msg : string).

(** ** Awaited calls *)

Inductive VideoUpdate :=
| IncViews (n : Z)                                      (* $inc: { views: n } *)
| SetDetails (t d : string) (thumb : Asset)             (* { title, description, thumbnail } *)
| SetIsPublished (b : bool).                            (* $set: { isPublished: b } *)

Inductive UserUpdate :=
| AddToSetWatchHistory (v : string).                    (* $addToSet: { watchHistory: v } *)

Record NewVideo := {
  nv_title : option string;
  nv_description : option string;
  nv_duration : Z;
  nv_videoFile : Asset;
  nv_thumbnail : Asset;
  nv_owner : option ObjectId;
  nv_isPublished : bool
}.

Record UploadResult := { up_url : string; up_public_id : string; up_duration : Z }.

Inductive Op : Type -> Type :=
| Video_aggregatePaginate (pipeline : list Stage) (o : PaginateOptions) : Op Page
| Video_aggregate (videoId : string) (viewer : option ObjectId) : Op (list DetailDoc)
| Video_create (nv : NewVideo) : Op (Exn + Video)
| Video_findById (id : string) : Op (option Video)
| Video_findByIdAndUpdate (id : string) (u : VideoUpdate) (new : bool) : Op (option Video)
| Video_findByIdAndDelete (id : string) : Op (option Video)
| User_findByIdAndUpdate (id : option ObjectId) (u : UserUpdate) : Op (option User)
| Like_deleteMany (video : string) : Op unit
| Comment_deleteMany (video : string) : Op unit
| uploadOnCloudinary (localPath : string) : Op (option UploadResult)
| deleteOnCloudinary (publicId : string) : Op bool.

(** A handler: it sends a value, throws, or awaits a call and goes on with
    the answer. *)
Inductive Prog (A : Type) : Type :=
| Ret (a : A)
| Throw (e : Exn)
| Call (X : Type) (op : Op X) (k : X -> Prog A).

Arguments Ret {A} a.
Arguments Throw {A} e.
Arguments Call {A X} op k.

Fixpoint bind {A B} (p : Prog A) (f : A -> Prog B) : Prog B :=
  match p with
  | Ret a => f a
  | Throw e => Throw e
  | Call op k => Call op (fun x => bind (k x) f)
  end.

Definition await {X} (op : Op X) : Prog X := Call op (fun x => Ret x).

(** [if (c) throw e] *)
Definition throwIf (c : bool) (e : Exn) : Prog unit :=
  if c then Throw e else Ret tt.

Declare Scope prog_scope.
Delimit Scope prog_scope with prog.
Notation "x <- p ;; q" := (bind p (fun x => q))
  (at level 61, p at next level, right associativity) : prog_scope.
Notation "p ;; q" := (bind p (fun _ => q))
  (at level 61, right associativity) : prog_scope.
Local Open Scope prog_scope.

(** ** Small JavaScript idioms of the controller *)

(** The string held by a value already known to be defined. *)
Definition str (s : option string) : string :=
  match s with Some x => x | None => "" end.

(** Every object is truthy: an array (also the empty one) and a function. *)
Definition truthyObject : bool := true.

(** [field?.trim() === ""]: [undefined?.trim()] is [undefined], not [""] . *)
Definition blank (field : option string) : bool :=
  match field with
  | Some s => String.eqb (Js.trim s) ""
  | None => false
  end.

(** [a.toString() !== b?.toString()] *)
Definition differs (a : ObjectId) (b : option ObjectId) : bool :=
  match b with
  | Some b' => negb (String.eqb a b')
  | None => true
  end.

(** [req.files?.<field>[0].path]: only [req.files] is guarded by [?.] *)
Definition firstPath (field : Files -> option (list File)) (fs : option Files)
  : Prog (option string) :=
  match fs with
  | None => Ret None
  | Some f =>
      match field f with
      | None => Throw (TypeError "Cannot read properties of undefined (reading '0')")
      | Some [] => Throw (TypeError "Cannot read properties of undefined (reading 'path')")
      | Some (x :: _) => Ret (Some (path x))
      end
  end.

(** An awaited call whose promise may reject. *)
Definition awaitOrThrow {X} (op : Op (Exn + X)) : Prog X :=
  Call op (fun r => match r with inl e => Throw e | inr x => Ret x end).

Definition isNone {A} (o : option A) : bool :=
  match o with Some _ => false | None => true end.

(** [parseInt(v, 10)] where [v] is the query string or the default number. *)
Definition parseIntOr (v : option string) (default : Z) : Js.number :=
  match v with
  | Some s => Js.parseInt s
  | None => Js.Num default
  end.

Definition send (code : Z) (d : Data) (msg : string) : Prog Response :=
  Ret {| status := code; json := newApiResponse code d msg |}.

(** ** The handlers *)

Definition getAllVideos (req : Request) : Prog Response :=
  let q := req_query req in
  let pipeline : list Stage := [] in
  let pipeline :=
    if Js.truthy (query q)
    then pipeline ++ [Search "search-videos" (str (query q)) ["title"; "description"]]
    else pipeline in
  pipeline <-
    (if Js.truthy (userId q)
     then throwIf (negb (isValidObjectId (userId q))) (ApiError 400 "Invalid userId") ;;
          Ret (pipeline ++ [MatchOwner (toObjectId (str (userId q)))])
     else Ret pipeline) ;;
  let pipeline := pipeline ++ [MatchIsPublished true] in
  let pipeline :=
    if Js.truthy (sortBy q) && Js.truthy (sortType q)
    then pipeline ++ [Sort (str (sortBy q))
                           (if String.eqb (str (sortType q)) "asc" then 1 else -1)]
    else pipeline ++ [Sort "createdAt" (-1)] in
  let pipeline := pipeline ++ [LookupOwnerDetails; UnwindOwnerDetails] in
  let options := {| opt_page := parseIntOr (page q) 1;
                    opt_limit := parseIntOr (limit q) 10 |} in
  video <- await (Video_aggregatePaginate pipeline options) ;;
  send 200 (DPage video) "Videos fetched successfully".

Definition publishAVideo (req : Request) : Prog Response :=
  let title := body_title (req_body req) in
  let description := body_description (req_body req) in
  throwIf (existsb blank [title; description])
          (ApiError 400 "All fields are required") ;;
  videoFileLocalPath <- firstPath files_videoFile (req_files req) ;;
  thumbnailLocalPath <- firstPath files_thumbnail (req_files req) ;;
  throwIf (negb (Js.truthy videoFileLocalPath))
          (ApiError 400 "video file local path is required") ;;
  throwIf (negb (Js.truthy thumbnailLocalPath))
          (ApiError 400 "thumbnail local path is required") ;;
  videoFile <- await (uploadOnCloudinary (str videoFileLocalPath)) ;;
  thumbnail <- await (uploadOnCloudinary (str thumbnailLocalPath)) ;;
  match videoFile with
  | None => Throw (ApiError 400 "video not found")
  | Some videoFile =>
  match thumbnail with
  | None => Throw (ApiError 400 "thumbnail not found")
  | Some thumbnail =>
      video <- awaitOrThrow (Video_create
        {| nv_title := title;
           nv_description := description;
           nv_duration := up_duration videoFile;
           nv_videoFile := {| url := up_url videoFile;
                              public_id := up_public_id videoFile |};
           nv_thumbnail := {| url := up_url thumbnail;
                              public_id := up_public_id thumbnail |};
           nv_owner := req_user req;
           nv_isPublished := false |}) ;;
      videoUploaded <- await (Video_findById (_id video)) ;;
      throwIf (isNone videoUploaded) (ApiError 500 "video upload failed") ;;
      send 200 (DVideo video) "Video uploaded successfully"
  end end.

Definition getVideoById (req : Request) : Prog Response :=
  let videoId := req_videoId req in
  throwIf (negb (isValidObjectId (Some videoId))) (ApiError 400 "Invalid videoId") ;;
  throwIf (negb (isValidObjectId (req_user req))) (ApiError 400 "Invalid userId") ;;
  video <- await (Video_aggregate videoId (req_user req)) ;;
  (* [if (!video)] on the array the aggregation resolves to *)
  throwIf (negb truthyObject) (ApiError 500 "failed to fetch video") ;;
  await (Video_findByIdAndUpdate videoId (IncViews 1) false) ;;
  await (User_findByIdAndUpdate (req_user req) (AddToSetWatchHistory videoId)) ;;
  send 200 (match video with d :: _ => DDetail d | [] => DUndefined end)
       "video details fetched successfully".

Definition updateVideo (req : Request) : Prog Response :=
  let videoId := req_videoId req in
  throwIf (negb (isValidObjectId (Some videoId))) (ApiError 400 "Invalid videoId") ;;
  let title := body_title (req_body req) in
  let description := body_description (req_body req) in
  throwIf (negb (Js.truthy title && Js.truthy description))
          (ApiError 400 "title and description are required") ;;
  video <- await (Video_findById videoId) ;;
  match video with
  | None => Throw (ApiError 400 "video not found")
  | Some video =>
      throwIf (differs (owner video) (req_user req))
              (ApiError 403 "you are not authorized to update this video") ;;
      let thumbnailToDelete := public_id (thumbnail video) in
      let thumbnailLocalPath := option_map path (req_file req) in
      throwIf (negb (Js.truthy thumbnailLocalPath)) (ApiError 400 "thumbnail is required") ;;
      thumbnail <- await (uploadOnCloudinary (str thumbnailLocalPath)) ;;
      match thumbnail with
      | None => Throw (ApiError 400 "thumbnail not found")
      | Some thumbnail =>
          updatedVideo <- await (Video_findByIdAndUpdate videoId
                                   (SetDetails (str title) (str description)
                                      {| public_id := up_public_id thumbnail;
                                         url := up_url thumbnail |})
                                   true) ;;
          (* both tests read [updateVideo], this handler, not [updatedVideo] *)
          throwIf (negb truthyObject) (ApiError 500 "failed to update video") ;;
          (if truthyObject
           then await (deleteOnCloudinary thumbnailToDelete) ;; Ret tt
           else Ret tt) ;;
          send 200 (match updatedVideo with Some v => DVideo v | None => DNull end)
               "video updated successfully"
      end
  end.

Definition deleteVideo (req : Request) : Prog Response :=
  let videoId := req_videoId req in
  throwIf (negb (isValidObjectId (Some videoId))) (ApiError 400 "Invalid videoId") ;;
  video <- await (Video_findById videoId) ;;
  match video with
  | None => Throw (ApiError 400 "video not found")
  | Some video =>
      throwIf (differs (owner video) (req_user req))
              (ApiError 403 "you are not authorized to delete this video") ;;
      videoDeleted <- await (Video_findByIdAndDelete (_id video)) ;;
      throwIf (isNone videoDeleted) (ApiError 500 "failed to delete video") ;;
      await (deleteOnCloudinary (public_id (thumbnail video))) ;;
      await (deleteOnCloudinary (public_id (videoFile video))) ;;
      await (Like_deleteMany videoId) ;;
      await (Comment_deleteMany videoId) ;;
      send 200 DNull "video deleted successfully"
  end.

Definition togglePublishStatus (req : Request) : Prog Response :=
  let videoId := req_videoId req in
  throwIf (negb (isValidObjectId (Some videoId))) (ApiError 400 "Invalid videoId") ;;
  video <- await (Video_findById videoId) ;;
  match video with
  | None => Throw (ApiError 404 "Video not found")
  | Some video =>
      throwIf (differs (owner video) (req_user req))
              (ApiError 403 "You are not authorized to update this video") ;;
      toggledVideoPublish <- await (Video_findByIdAndUpdate videoId
                                      (SetIsPublished (negb (isPublished video))) true) ;;
      match toggledVideoPublish with
      | None => Throw (ApiError 500 "Failed to toogle video publish status")
      | Some toggled =>
          send 200 (DFlag (isPublished toggled)) "Video publish toggled successfully"
      end
  end.

(** ** The world behind the awaited calls *)

(** Modelled from the spec: the database engine, the search index, the
    pagination plugin, the model schemas and [utils/cloudinary.js] are not
    part of the sources; section 6 of the specification gives their
    contracts (create/read/update/delete, aggregation stages, atomic
    increment, set-add-if-absent, paginate, upload and delete of an asset).
    The world is what those collaborators hold. *)
Record World := {
  videos : list Video;
  users : list User;
  likes : list Like;
  comments : list Comment;
  subscriptions : list Subscription;
  cloud : list string;                    (* public ids held by the media store *)
  refused : list string;                  (* public ids the media store fails to delete *)
  staged : list (string * Z);             (* local staging files and their duration *)
  searchIndex : string -> list Video -> list Video;   (* the managed text index *)
  clock : nat                             (* source of fresh ids and timestamps *)
}.

Definition with_videos (w : World) (vs : list Video) : World :=
  {| videos := vs; users := users w; likes := likes w; comments := comments w;
     subscriptions := subscriptions w; cloud := cloud w; refused := refused w;
     staged := staged w;
     searchIndex := searchIndex w; clock := clock w |}.

Definition with_users (w : World) (us : list User) : World :=
  {| videos := videos w; users := us; likes := likes w; comments := comments w;
     subscriptions := subscriptions w; cloud := cloud w; refused := refused w;
     staged := staged w;
     searchIndex := searchIndex w; clock := clock w |}.

Definition with_likes (w : World) (ls : list Like) : World :=
  {| videos := videos w; users := users w; likes := ls; comments := comments w;
     subscriptions := subscriptions w; cloud := cloud w; refused := refused w;
     staged := staged w;
     searchIndex := searchIndex w; clock := clock w |}.

Definition with_comments (w : World) (cs : list Comment) : World :=
  {| videos := videos w; users := users w; likes := likes w; comments := cs;
     subscriptions := subscriptions w; cloud := cloud w; refused := refused w;
     staged := staged w;
     searchIndex := searchIndex w; clock := clock w |}.

Definition with_cloud (w : World) (c : list string) : World :=
  {| videos := videos w; users := users w; likes := likes w; comments := comments w;
     subscriptions := subscriptions w; cloud := c; refused := refused w;
     staged := staged w;
     searchIndex := searchIndex w; clock := clock w |}.

Definition tick (w : World) : World :=
  {| videos := videos w; users := users w; likes := likes w; comments := comments w;
     subscriptions := subscriptions w; cloud := cloud w; refused := refused w;
     staged := staged w;
     searchIndex := searchIndex w; clock := S (clock w) |}.

(** *** Fresh identifiers *)

Definition hexDigit (n : nat) : ascii :=
  if (n <? 10)%nat then ascii_of_nat (48 + n) else ascii_of_nat (87 + n).

Fixpoint hex (width n : nat) (acc : string) : string :=
  match width with
  | O => acc
  | S width' => hex width' (n / 16)%nat (String (hexDigit (n mod 16)) acc)
  end.

Definition freshId (w : World) : ObjectId := hex 24 (clock w) "".

(** *** Single documents *)

Definition hasId (id : ObjectId) (v : Video) : bool := String.eqb (_id v) id.

Definition findVideo (id : ObjectId) (vs : list Video) : option Video :=
  find (hasId id) vs.

Definition applyUpdate (u : VideoUpdate) (v : Video) : Video :=
  match u with
  | IncViews n =>
      {| _id := _id v; title := title v; description := description v;
         duration := duration v; videoFile := videoFile v; thumbnail := thumbnail v;
         views := views v + n; isPublished := isPublished v; owner := owner v;
         createdAt := createdAt v |}
  | SetDetails t d th =>
      {| _id := _id v; title := t; description := d;
         duration := duration v; videoFile := videoFile v; thumbnail := th;
         views := views v; isPublished := isPublished v; owner := owner v;
         createdAt := createdAt v |}
  | SetIsPublished b =>
      {| _id := _id v; title := title v; description := description v;
         duration := duration v; videoFile := videoFile v; thumbnail := thumbnail v;
         views := views v; isPublished := b; owner := owner v;
         createdAt := createdAt v |}
  end.

(** The first document with the identifier is rewritten. *)
Fixpoint updateVideoIn (id : ObjectId) (u : VideoUpdate) (vs : list Video) : list Video :=
  match vs with
  | [] => []
  | v :: r => if hasId id v then applyUpdate u v :: r else v :: updateVideoIn id u r
  end.

Fixpoint removeVideo (id : ObjectId) (vs : list Video) : list Video :=
  match vs with
  | [] => []
  | v :: r => if hasId id v then r else v :: removeVideo id r
  end.

(** [$addToSet]: appended at the end unless already a member. *)
Definition addToSet (x : ObjectId) (s : list ObjectId) : list ObjectId :=
  if existsb (String.eqb x) s then s else s ++ [x].

Definition isUser (id : ObjectId) (u : User) : bool := String.eqb (user_id u) id.

Definition findUser (id : ObjectId) (us : list User) : option User :=
  find (isUser id) us.

Definition applyUserUpdate (u : UserUpdate) (usr : User) : User :=
  match u with
  | AddToSetWatchHistory v =>
      {| user_id := user_id usr; username := username usr; avatar := avatar usr;
         watchHistory := addToSet (toObjectId v) (watchHistory usr) |}
  end.

Fixpoint updateUserIn (id : ObjectId) (u : UserUpdate) (us : list User) : list User :=
  match us with
  | [] => []
  | x :: r => if isUser id x then applyUserUpdate u x :: r else x :: updateUserIn id u r
  end.

(** *** The list pipeline *)

Inductive SortKey :=
| KMissing
| KNum (z : Z)
| KStr (s : string)
| KId (s : ObjectId)
| KBool (b : bool)
| KDate (z : Z).

(** Order of the value types when a sort compares across them. *)
Definition rank (k : SortKey) : nat :=
  match k with
  | KMissing => 0 | KNum _ => 1 | KStr _ => 2 | KId _ => 3 | KBool _ => 4 | KDate _ => 5
  end.

Definition keyLeb (a b : SortKey) : bool :=
  match a, b with
  | KNum x, KNum y => x <=? y
  | KDate x, KDate y => x <=? y
  | KStr x, KStr y => String.leb x y
  | KId x, KId y => String.leb x y
  | KBool x, KBool y => implb x y
  | _, _ => (rank a <=? rank b)%nat
  end.

(** The value a sort reads under a field name; an unknown name is missing
    from every document. *)
Definition fieldOf (f : string) (v : Video) : SortKey :=
  if String.eqb f "_id" then KId (_id v)
  else if String.eqb f "title" then KStr (title v)
  else if String.eqb f "description" then KStr (description v)
  else if String.eqb f "duration" then KNum (duration v)
  else if String.eqb f "views" then KNum (views v)
  else if String.eqb f "isPublished" then KBool (isPublished v)
  else if String.eqb f "owner" then KId (owner v)
  else if String.eqb f "createdAt" then KDate (createdAt v)
  else if String.eqb f "videoFile.url" then KStr (url (videoFile v))
  else if String.eqb f "videoFile.public_id" then KStr (public_id (videoFile v))
  else if String.eqb f "thumbnail.url" then KStr (url (thumbnail v))
  else if String.eqb f "thumbnail.public_id" then KStr (public_id (thumbnail v))
  else KMissing.

Definition docLeb (f : string) (dir : Z) (a b : Doc) : bool :=
  if 0 <? dir
  then keyLeb (fieldOf f (doc a)) (fieldOf f (doc b))
  else keyLeb (fieldOf f (doc b)) (fieldOf f (doc a)).

Fixpoint insertBy (le : Doc -> Doc -> bool) (x : Doc) (l : list Doc) : list Doc :=
  match l with
  | [] => [x]
  | y :: r => if le x y then x :: l else y :: insertBy le x r
  end.

Definition sortDocs (le : Doc -> Doc -> bool) (l : list Doc) : list Doc :=
  fold_right (insertBy le) [] l.

Definition summary (u : User) : OwnerSummary :=
  {| os_id := user_id u; os_username := username u; os_avatar_url := url (avatar u) |}.

(** Modelled from the spec: one aggregation stage of the database
    (match, sort, lookup, unwind; the text search is the index's answer). *)
Definition runStage (w : World) (st : Stage) (ds : list Doc) : list Doc :=
  match st with
  | Search _ q _ =>
      map (fun v => {| doc := v; ownerDetails := [] |}) (searchIndex w q (map doc ds))
  | MatchOwner o => filter (fun d => String.eqb (owner (doc d)) o) ds
  | MatchIsPublished b => filter (fun d => Bool.eqb (isPublished (doc d)) b) ds
  | Sort f dir => sortDocs (docLeb f dir) ds
  | LookupOwnerDetails =>
      map (fun d => {| doc := doc d;
                       ownerDetails :=
                         map summary (filter (isUser (owner (doc d))) (users w)) |}) ds
  | UnwindOwnerDetails =>
      flat_map (fun d => map (fun o => {| doc := doc d; ownerDetails := [o] |})
                             (ownerDetails d)) ds
  end.

Definition aggregate (w : World) (pipeline : list Stage) : list Doc :=
  fold_left (fun ds st => runStage w st ds) pipeline
            (map (fun v => {| doc := v; ownerDetails := [] |}) (videos w)).

(** Modelled from the spec: the paginate-over-aggregation helper of the
    database plugin; page and limit both default to safe positive integers.
    The page is [|page|], or 1 when that is zero or not a finite number; the
    limit is the limit when positive and finite, else 10; the items are that
    slice of the aggregated documents. *)
Definition paginate (o : PaginateOptions) (all : list Doc) : Page :=
  let p := match opt_page o with
           | Js.Num p => if p =? 0 then 1 else Z.abs p
           | _ => 1
           end in
  let l := match opt_limit o with
           | Js.Num l => if 0 <? l then l else 10
           | _ => 10
           end in
  let total := Z.of_nat (List.length all) in
  {| docs := firstn (Z.to_nat l) (skipn (Z.to_nat ((p - 1) * l)) all);
     totalDocs := total;
     page_limit := l;
     page_no := p;
     totalPages := Z.max 1 ((total + l - 1) / l) |}.

(** *** The detail pipeline of [getVideoById], stage by stage *)

Definition memberId (x : option ObjectId) (l : list ObjectId) : bool :=
  match x with
  | Some i => existsb (String.eqb i) l
  | None => false
  end.

Definition enrichOwner (w : World) (viewer : option ObjectId) (u : User) : OwnerDetail :=
  let subscribers := filter (fun s => String.eqb (channel s) (user_id u)) (subscriptions w) in
  {| od_id := user_id u;
     od_username := username u;
     od_avatar_url := url (avatar u);
     subscribersCount := Z.of_nat (List.length subscribers);
     isSubscribed := memberId viewer (map subscriber subscribers) |}.

Definition detailOf (w : World) (viewer : option ObjectId) (v : Video) : DetailDoc :=
  let likes_v := filter (fun l => String.eqb (like_video l) (_id v)) (likes w) in
  let owners := map (enrichOwner w viewer) (filter (isUser (owner v)) (users w)) in
  {| d_id := _id v;
     d_videoFile_url := url (videoFile v);
     d_title := title v;
     d_description := description v;
     d_views := views v;
     d_createdAt := createdAt v;
     d_duration := duration v;
     d_owner := hd_error owners;
     likesCount := Z.of_nat (List.length likes_v);
     isLiked := memberId viewer (map likedBy likes_v) |}.

(** The pipeline literal of [getVideoById] (match by identifier, lookup of
    the likes, lookup of the owner with the subscribers, added fields,
    projection), one result per matching video. *)
Definition aggregateDetail (w : World) (videoId : string) (viewer : option ObjectId)
  : list DetailDoc :=
  map (detailOf w viewer) (filter (hasId (toObjectId videoId)) (videos w)).

(** *** One awaited call against the world *)

(** Modelled from the spec: [Video.create] under the schema of
    [models/video.models.js], which is not part of the sources.  A video has a
    title, a description and exactly one owner; a document that lacks one is
    rejected by the schema. *)
Definition createVideo (w : World) (nv : NewVideo) : World * (Exn + Video) :=
  match nv_title nv, nv_description nv, nv_owner nv with
  | Some t, Some d, Some o =>
      let v := {| _id := freshId w; title := t; description := d;
                  duration := nv_duration nv; videoFile := nv_videoFile nv;
                  thumbnail := nv_thumbnail nv; views := 0;
                  isPublished := nv_isPublished nv; owner := o;
                  createdAt := Z.of_nat (clock w) |} in
      (tick (with_videos w (videos w ++ [v])), inr v)
  | _, _, _ => (w, inl (SchemaError "Video validation failed"))
  end.

(** Modelled from the spec: [uploadOnCloudinary] of [utils/cloudinary.js],
    upload(localPath) -> {url, storageId, duration} or no result.  The upload
    gives no result when the local file is not staged. *)
Definition upload (w : World) (localPath : string) : World * option UploadResult :=
  match find (fun f => String.eqb (fst f) localPath) (staged w) with
  | Some (_, seconds) =>
      let id := freshId w in
      (tick (with_cloud w (cloud w ++ [id])),
       Some {| up_url := "http://res.cloudinary.com/" ++ id;
               up_public_id := id;
               up_duration := seconds |})
  | None => (w, None)
  end.

(** Modelled from the spec: [deleteOnCloudinary] of [utils/cloudinary.js],
    delete(storageId) -> success/failure.  The failure is an answer, not an
    exception: on an asset the media store refuses to delete nothing changes
    and the answer is [false]; otherwise the asset is gone and the answer
    tells whether it was there. *)
Definition destroy (w : World) (publicId : string) : World * bool :=
  if existsb (String.eqb publicId) (refused w)
  then (w, false)
  else (with_cloud w (filter (fun a => negb (String.eqb a publicId)) (cloud w)),
        existsb (String.eqb publicId) (cloud w)).

(** Modelled from the spec: the answer of each collaborator call and what
    it leaves in the world (read, update and delete by identifier, atomic
    increment, set-add-if-absent, delete-many by reference, asset upload and
    delete). *)
Definition handle {X} (op : Op X) (w : World) : World * X :=
  match op in Op X return World * X with
  | Video_aggregatePaginate pipeline o => (w, paginate o (aggregate w pipeline))
  | Video_aggregate videoId viewer => (w, aggregateDetail w videoId viewer)
  | Video_create nv => createVideo w nv
  | Video_findById id => (w, findVideo (toObjectId id) (videos w))
  | Video_findByIdAndUpdate id u new =>
      match findVideo (toObjectId id) (videos w) with
      | Some v =>
          (with_videos w (updateVideoIn (toObjectId id) u (videos w)),
           Some (if new then applyUpdate u v else v))
      | None => (w, None)
      end
  | Video_findByIdAndDelete id =>
      match findVideo (toObjectId id) (videos w) with
      | Some v => (with_videos w (removeVideo (toObjectId id) (videos w)), Some v)
      | None => (w, None)
      end
  | User_findByIdAndUpdate id u =>
      match id with
      | Some i =>
          match findUser i (users w) with
          | Some usr => (with_users w (updateUserIn i u (users w)), Some usr)
          | None => (w, None)
          end
      | None => (w, None)
      end
  | Like_deleteMany video =>
      (with_likes w (filter (fun l => negb (String.eqb (like_video l) (toObjectId video)))
                            (likes w)), tt)
  | Comment_deleteMany video =>
      (with_comments w (filter (fun c => negb (String.eqb (comment_video c) (toObjectId video)))
                               (comments w)), tt)
  | uploadOnCloudinary localPath => upload w localPath
  | deleteOnCloudinary publicId => destroy w publicId
  end.

(** *** Other requests

    Between two awaited calls of a handler another request may run.  The one
    that matters to this controller is a delete of the same video. *)

Inductive Interference :=
| Quiet
| RacingDelete (id : ObjectId).

Definition interfere (i : Interference) (w : World) : World :=
  match i with
  | Quiet => w
  | RacingDelete id => with_videos w (removeVideo id (videos w))
  end.

(** ** Running a handler *)

Inductive Event := Issued (X : Type) (op : Op X).
Arguments Issued {X} op.

Inductive Outcome (A : Type) :=
| Sent (a : A)
| Threw (e : Exn).
Arguments Sent {A} a.
Arguments Threw {A} e.

Record Run (A : Type) := {
  final : World;
  trace : list Event;
  outcome : Outcome A
}.

(** The head of the schedule runs before each call; an exhausted schedule is
    quiet. *)
Fixpoint run {A} (p : Prog A) (sched : list Interference) (w : World) : Run A :=
  match p with
  | Ret a => {| final := w; trace := []; outcome := Sent a |}
  | Throw e => {| final := w; trace := []; outcome := Threw e |}
  | Call op k =>
      let answered := handle op (interfere (hd Quiet sched) w) in
      let r := run (k (snd answered)) (tl sched) (fst answered) in
      {| final := final r; trace := Issued op :: trace r; outcome := outcome r |}
  end.

(** No other request in flight. *)
Definition alone {A} (p : Prog A) (w : World) : Run A := run p [] w.

(** ** A small world to run the handlers on *)

Module Sample.

Definition alice : ObjectId := "aaaaaaaaaaaaaaaaaaaaaaa1".
Definition bob : ObjectId := "bbbbbbbbbbbbbbbbbbbbbbb2".
Definition v1 : ObjectId := "64b000000000000000000001".
Definition v2 : ObjectId := "64b000000000000000000002".
Definition ghost : ObjectId := "64b0000000000000000000ff".

Definition asset (id : string) : Asset :=
  {| url := "http://res.cloudinary.com/" ++ id; public_id := id |}.

Definition video1 : Video :=
  {| _id := v1; title := "cats"; description := "a cat video"; duration := 12;
     videoFile := asset "file1"; thumbnail := asset "thumb1"; views := 7;
     isPublished := true; owner := alice; createdAt := 100 |}.

Definition video2 : Video :=
  {| _id := v2; title := "draft"; description := "not out yet"; duration := 30;
     videoFile := asset "file2"; thumbnail := asset "thumb2"; views := 0;
     isPublished := false; owner := alice; createdAt := 200 |}.

Definition userA : User :=
  {| user_id := alice; username := "alice"; avatar := asset "avA"; watchHistory := [] |}.

Definition userB : User :=
  {| user_id := bob; username := "bob"; avatar := asset "avB"; watchHistory := [] |}.

Definition world : World :=
  {| videos := [video1; video2];
     users := [userA; userB];
     likes := [ {| like_video := v1; likedBy := bob |};
                {| like_video := v2; likedBy := bob |} ];
     comments := [ {| comment_video := v1; content := "nice"; comment_owner := bob |} ];
     subscriptions := [ {| subscriber := bob; channel := alice |} ];
     cloud := ["file1"; "thumb1"; "file2"; "thumb2"; "avA"; "avB"];
     refused := [];
     staged := [("/tmp/new.mp4", 42); ("/tmp/new.png", 0)];
     searchIndex := fun _ vs => vs;
     clock := 4096%nat |}.

Definition noQuery : ListQuery :=
  {| page := None; limit := None; query := None; sortBy := None;
     sortType := None; userId := None |}.

(** A request by [user] on [videoId] with nothing else set. *)
Definition request (user : option ObjectId) (videoId : string) : Request :=
  {| req_query := noQuery;
     req_body := {| body_title := None; body_description := None |};
     req_videoId := videoId;
     req_files := None;
     req_file := None;
     req_user := user |}.

Definition withBody (r : Request) (t d : option string) : Request :=
  {| req_query := req_query r;
     req_body := {| body_title := t; body_description := d |};
     req_videoId := req_videoId r;
     req_files := req_files r;
     req_file := req_file r;
     req_user := req_user r |}.

Definition withFiles (r : Request) (fs : option Files) : Request :=
  {| req_query := req_query r;
     req_body := req_body r;
     req_videoId := req_videoId r;
     req_files := fs;
     req_file := req_file r;
     req_user := req_user r |}.

Definition withFile (r : Request) (f : option File) : Request :=
  {| req_query := req_query r;
     req_body := req_body r;
     req_videoId := req_videoId r;
     req_files := req_files r;
     req_file := f;
     req_user := req_user r |}.

(** The list endpoint asked for alice's videos by ascending views. *)
Definition listByAlice : Request :=
  {| req_query := {| page := Some "1"; limit := Some "5"; query := None;
                     sortBy := Some "views"; sortType := Some "asc";
                     userId := Some alice |};
     req_body := {| body_title := None; body_description := None |};
     req_videoId := ""; req_files := None; req_file := None;
     req_user := None |}.

(** bob asks for the detail of a video nobody stored, then of a stored one. *)
Definition bobWatchesGhost : Request := request (Some bob) ghost.
Definition bobWatches : Request := request (Some bob) v1.

(** The same world with a media store that fails to delete one thumbnail. *)
Definition sticky : World :=
  {| videos := videos world; users := users world; likes := likes world;
     comments := comments world; subscriptions := subscriptions world;
     cloud := cloud world; refused := ["thumb1"]; staged := staged world;
     searchIndex := searchIndex world; clock := clock world |}.

(** The same world once the draft is out too: two published videos. *)
Definition busy : World :=
  with_videos world [video1; applyUpdate (SetIsPublished true) video2].

(** The list request [r] asked for the videos of [u] instead. *)
Definition withQuery (r : Request) (u : option string) : Request :=
  {| req_query := {| page := page (req_query r); limit := limit (req_query r);
                     query := query (req_query r); sortBy := sortBy (req_query r);
                     sortType := sortType (req_query r); userId := u |};
     req_body := req_body r;
     req_videoId := req_videoId r;
     req_files := req_files r;
     req_file := req_file r;
     req_user := req_user r |}.

(** alice, the owner, deletes, toggles and updates her first video. *)
Definition aliceOnV1 : Request := request (Some alice) v1.
Definition aliceUpdates : Request :=
  withFile (withBody aliceOnV1 (Some "t") (Some "d")) (Some {| path := "/tmp/new.png" |}).

(** Ingestion requests: no title in the body; no thumbnail among the files. *)
Definition bothFiles : Files :=
  {| files_videoFile := Some [ {| path := "/tmp/new.mp4" |} ];
     files_thumbnail := Some [ {| path := "/tmp/new.png" |} ] |}.
Definition videoFileOnly : Files :=
  {| files_videoFile := Some [ {| path := "/tmp/new.mp4" |} ];
     files_thumbnail := None |}.
Definition publishNoTitle : Request :=
  withFiles (withBody (request (Some alice) "") None (Some "d")) (Some bothFiles).
Definition publishBlankTitle : Request :=
  withFiles (withBody (request (Some alice) "") (Some "   ") (Some "d")) (Some bothFiles).
(** U+00A0 in UTF-8, and a title made of a space and a no-break space. *)
Definition noBreakSpace : string := String (ascii_of_nat 194) (String (ascii_of_nat 160) "").
Definition publishNoBreakSpaceTitle : Request :=
  withFiles (withBody (request (Some alice) "") (Some (" " ++ noBreakSpace)%string)
                      (Some "d"))
            (Some bothFiles).
Definition publishBoth : Request :=
  withFiles (withBody (request (Some alice) "") (Some "t") (Some "d")) (Some bothFiles).
Definition publishLostThumbnail : Request :=
  withFiles (withBody (request (Some alice) "") (Some "t") (Some "d"))
            (Some {| files_videoFile := Some [ {| path := "/tmp/new.mp4" |} ];
                     files_thumbnail := Some [ {| path := "/tmp/gone.png" |} ] |}).
Definition publishNoThumbnail : Request :=
  withFiles (withBody (request (Some alice) "") (Some "t") (Some "d")) (Some videoFileOnly).

(** bob acting on alice's first video, with and without a title. *)
Definition bobEdits : Request := withBody (request (Some bob) v1) (Some "t") (Some "d").
Definition bobEditsNoTitle : Request := withBody (request (Some bob) v1) (Some "") (Some "d").

End Sample.

(** ** Vocabulary of the properties *)

Definition published (ds : list Doc) : Prop :=
  Forall (fun d => isPublished (doc d) = true) ds.

(** Stages that neither invent nor rewrite the video of a document. *)
Definition keepsVideos (st : Stage) : bool :=
  match st with
  | Search _ _ _ => false
  | _ => true
  end.

Definition validIds (w : World) : Prop :=
  Forall (fun v => isValidObjectId (Some (_id v)) = true) (videos w).

(** The handler stops with 403 after its single read and leaves the world
    as it found it. *)
Definition forbidden (h : Request -> Prog Response) (req : Request) (w : World) : Prop :=
  exists msg,
    alone (h req) w =
    {| final := w;
       trace := [Issued (Video_findById (req_videoId req))];
       outcome := Threw (ApiError 403 msg) |}.

Definition detailsFetched (d : Data) : Outcome Response :=
  Sent {| status := 200;
          json := newApiResponse 200 d "video details fetched successfully" |}.

Definition videoDeleted : Outcome Response :=
  Sent {| status := 200; json := newApiResponse 200 DNull "video deleted successfully" |}.

Definition toggled (flag : bool) : Outcome Response :=
  Sent {| status := 200;
          json := newApiResponse 200 (DFlag flag) "Video publish toggled successfully" |}.

Definition videoUpdated (d : Data) : Outcome Response :=
  Sent {| status := 200; json := newApiResponse 200 d "video updated successfully" |}.

(** The handler throws before it awaits anything, whatever else is going on. *)
Definition refusedAtOnce (p : Prog Response) (code : Z) (msg : string) : Prop :=
  forall sched w,
    run p sched w = {| final := w; trace := []; outcome := Threw (ApiError code msg) |}.

(** The handler throws after it read the video, and did nothing else. *)
Definition refusedAfterRead (h : Request -> Prog Response) (req : Request) (w : World)
           (code : Z) (msg : string) : Prop :=
  alone (h req) w =
  {| final := w;
     trace := [Issued (Video_findById (req_videoId req))];
     outcome := Threw (ApiError code msg) |}.

Definition videosFetched (p : Page) : Outcome Response :=
  Sent {| status := 200; json := newApiResponse 200 (DPage p) "Videos fetched successfully" |}.

Definition videoUploaded (v : Video) : Outcome Response :=
  Sent {| status := 200; json := newApiResponse 200 (DVideo v) "Video uploaded successfully" |}.

(** Orders in which a page can come. *)
Definition byViews (a b : Doc) : Prop := views (doc a) <= views (doc b).
Definition newestFirst (a b : Doc) : Prop := createdAt (doc b) <= createdAt (doc a).

(** The owner joined to a listed video: one entry, that of a stored user. *)
Definition ownerJoined (w : World) (d : Doc) : Prop :=
  exists u, In u (users w) /\ user_id u = owner (doc d) /\ ownerDetails d = [summary u].

(** The record ingestion creates from the two upload results. *)
Definition ingested (w : World) (t d : string) (uid : ObjectId) (upv upt : UploadResult)
  : Video :=
  {| _id := freshId w; title := t; description := d; duration := up_duration upv;
     videoFile := {| url := up_url upv; public_id := up_public_id upv |};
     thumbnail := {| url := up_url upt; public_id := up_public_id upt |};
     views := 0; isPublished := false; owner := uid;
     createdAt := Z.of_nat (clock w) |}.

(** The text index answers with videos among those it was given. *)
Definition searchSound (w : World) : Prop :=
  forall q vs v, In v (searchIndex w q vs) -> In v vs.

(** * Properties *)

(** ** Running through [bind] and the guards *)

Ltac step :=
  cbn [negb run bind throwIf await awaitOrThrow send handle interfere hd tl
       final trace outcome fst snd].

Lemma run_throwIf_false A (e : Exn) (k : unit -> Prog A) sched w :
  run (bind (throwIf false e) k) sched w = run (k tt) sched w.
Proof. reflexivity. Qed.

Lemma run_throwIf_true A (e : Exn) (k : unit -> Prog A) sched w :
  run (bind (throwIf true e) k) sched w =
  {| final := w; trace := []; outcome := Threw e |}.
Proof. reflexivity. Qed.

(** ** The list pipeline keeps only published videos *)

Lemma insertBy_published le x l :
  isPublished (doc x) = true -> published l -> published (insertBy le x l).
Proof.
  intros Hx Hl. induction Hl as [|y r Hy Hr IH]; simpl.
  - repeat constructor. exact Hx.
  - destruct (le x y).
    + constructor; [exact Hx|]. constructor; assumption.
    + constructor; assumption.
Qed.

Lemma sortDocs_published le l : published l -> published (sortDocs le l).
Proof.
  induction 1 as [|x r Hx Hr IH]; simpl.
  - constructor.
  - apply insertBy_published; assumption.
Qed.

Lemma filter_published f l : published l -> published (filter f l).
Proof.
  unfold published. rewrite !Forall_forall. intros H d Hd.
  apply filter_In in Hd. apply H, Hd.
Qed.

Lemma runStage_published w st ds :
  keepsVideos st = true -> published ds -> published (runStage w st ds).
Proof.
  intros Hst Hds. destruct st; simpl in *; try discriminate.
  - apply filter_published, Hds.
  - apply filter_published, Hds.
  - apply sortDocs_published, Hds.
  - unfold published in *. rewrite Forall_forall in *. intros d Hd.
    apply in_map_iff in Hd. destruct Hd as [d0 [<- Hd0]]. simpl. apply Hds, Hd0.
  - unfold published in *. rewrite Forall_forall in *. intros d Hd.
    apply in_flat_map in Hd. destruct Hd as [d0 [Hd0 Hd]].
    apply in_map_iff in Hd. destruct Hd as [o [<- _]]. simpl. apply Hds, Hd0.
Qed.

Lemma matchIsPublished_published w ds : published (runStage w (MatchIsPublished true) ds).
Proof.
  simpl. unfold published. rewrite Forall_forall. intros d Hd.
  apply filter_In in Hd. destruct Hd as [_ Hd].
  destruct (isPublished (doc d)); [reflexivity | discriminate].
Qed.

Lemma stages_published w post : forall ds,
  forallb keepsVideos post = true -> published ds ->
  published (fold_left (fun ds st => runStage w st ds) post ds).
Proof.
  induction post as [|st post IH]; simpl; intros ds Hp Hds.
  - exact Hds.
  - apply andb_true_iff in Hp. destruct Hp as [Hst Hp].
    apply IH; [exact Hp|]. apply runStage_published; assumption.
Qed.

Lemma aggregate_published w pre post :
  forallb keepsVideos post = true ->
  published (aggregate w ((pre ++ [MatchIsPublished true]) ++ post)).
Proof.
  intros Hp. unfold aggregate. rewrite !fold_left_app. cbn [fold_left].
  apply stages_published; [exact Hp|]. apply matchIsPublished_published.
Qed.

Lemma firstn_published n : forall l, published l -> published (firstn n l).
Proof.
  induction n as [|n IH]; intros l Hl; simpl.
  - constructor.
  - destruct Hl as [|x r Hx Hr]; constructor; [exact Hx | apply IH, Hr].
Qed.

Lemma skipn_published n : forall l, published l -> published (skipn n l).
Proof.
  induction n as [|n IH]; intros l Hl; simpl.
  - exact Hl.
  - destruct Hl as [|x r Hx Hr]; [constructor | apply IH, Hr].
Qed.

Lemma paginate_published o all : published all -> published (docs (paginate o all)).
Proof.
  intros H. unfold paginate. cbn [docs].
  apply firstn_published, skipn_published, H.
Qed.

(** C1: whatever the query, owner filter, sort and paging parameters, and
    whatever other requests do meanwhile, a list request that is answered
    carries a page in which every video has [isPublished = true]. *)
Theorem getAllVideos_only_published (req : Request) sched w r :
  outcome (run (getAllVideos req) sched w) = Sent r ->
  exists p, data (json r) = DPage p /\
            Forall (fun d => isPublished (doc d) = true) (docs p).
Proof.
  unfold getAllVideos. cbn zeta.
  destruct (Js.truthy (userId (req_query req)));
    [destruct (isValidObjectId (userId (req_query req)))|];
    destruct (Js.truthy (sortBy (req_query req)) && Js.truthy (sortType (req_query req)));
    step;
    intros H; try discriminate H; injection H as <-;
    cbn [json data newApiResponse]; eexists; (split; [reflexivity|]);
    apply paginate_published; rewrite <- app_assoc;
    apply aggregate_published; reflexivity.
Qed.

(** C1 at work: a list request filtered by owner and sorted by views, on a
    world that holds one published and one unpublished video of that owner. *)
Lemma getAllVideos_only_published_witness :
  exists r, outcome (run (getAllVideos Sample.listByAlice) [] Sample.world) = Sent r /\
  exists p, data (json r) = DPage p /\
            Forall (fun d => isPublished (doc d) = true) (docs p).
Proof.
  eexists. split; [reflexivity|].
  apply (@getAllVideos_only_published Sample.listByAlice [] Sample.world). reflexivity.
Defined.

(** ** Identifiers found in the store are valid *)

Lemma sample_validIds : validIds Sample.world.
Proof. repeat constructor. Defined.

Lemma isHex_lower c : Js.isHex (Js.lower c) = Js.isHex c.
Proof.
  destruct c as [b0 b1 b2 b3 b4 b5 b6 b7].
  destruct b0, b1, b2, b3, b4, b5, b6, b7; reflexivity.
Qed.

Lemma length_lower s : String.length (Js.map Js.lower s) = String.length s.
Proof. induction s as [|c s IH]; simpl; [reflexivity | now rewrite IH]. Qed.

Lemma all_hex_lower s : Js.all Js.isHex (Js.map Js.lower s) = Js.all Js.isHex s.
Proof.
  induction s as [|c s IH]; [reflexivity|].
  cbn [Js.map Js.all]. now rewrite isHex_lower, IH.
Qed.

Lemma isValidObjectId_toObjectId s :
  isValidObjectId (Some (toObjectId s)) = isValidObjectId (Some s).
Proof.
  unfold isValidObjectId, toObjectId. now rewrite length_lower, all_hex_lower.
Qed.

Lemma findVideo_hasId id vs v : findVideo id vs = Some v -> In v vs /\ _id v = id.
Proof.
  intros H. apply find_some in H. destruct H as [Hin Hid].
  split; [exact Hin|]. now apply String.eqb_eq.
Qed.

Lemma found_is_valid w s v :
  validIds w -> findVideo (toObjectId s) (videos w) = Some v ->
  isValidObjectId (Some s) = true.
Proof.
  intros Hw Hf. apply findVideo_hasId in Hf. destruct Hf as [Hin Hid].
  unfold validIds in Hw. rewrite Forall_forall in Hw.
  rewrite <- isValidObjectId_toObjectId, <- Hid. apply Hw, Hin.
Qed.

Lemma differs_true a b : b <> Some a -> differs a b = true.
Proof.
  intros H. destruct b as [b|]; [|reflexivity]. simpl.
  destruct (String.eqb_spec a b) as [->|]; [now elim H | reflexivity].
Qed.

Lemma differs_false a : differs a (Some a) = false.
Proof. simpl. now rewrite String.eqb_refl. Qed.

(** ** Ownership guard *)

(** C2 (amended): on a stored video whose owner is not the acting user,
    delete and publish-toggle stop with Forbidden, and so does an update that
    carries a title and a description; an update that lacks one of them stops
    with the 400 of the validation before any read.  Nothing is written in
    either case. *)
Theorem non_owner_mutation_rejected (req : Request) w v :
  validIds w ->
  findVideo (toObjectId (req_videoId req)) (videos w) = Some v ->
  req_user req <> Some (owner v) ->
  forbidden deleteVideo req w /\
  forbidden togglePublishStatus req w /\
  (Js.truthy (body_title (req_body req)) && Js.truthy (body_description (req_body req)) = true ->
   forbidden updateVideo req w) /\
  (Js.truthy (body_title (req_body req)) && Js.truthy (body_description (req_body req)) = false ->
   alone (updateVideo req) w =
   {| final := w; trace := [];
      outcome := Threw (ApiError 400 "title and description are required") |}).
Proof.
  intros Hw Hf Ho.
  pose proof (found_is_valid _ Hw Hf) as Hv.
  pose proof (differs_true Ho) as Hd.
  unfold forbidden, alone, deleteVideo, togglePublishStatus, updateVideo.
  cbn zeta. rewrite Hv.
  step.
  rewrite Hf.
  step.
  rewrite Hd.
  repeat split.
  - eexists. reflexivity.
  - eexists. reflexivity.
  - intros Ht. rewrite Ht.
    step.
    rewrite Hf.
    step.
    rewrite Hd. eexists. reflexivity.
  - intros Ht. rewrite Ht. reflexivity.
Qed.

Lemma non_owner_mutation_rejected_witness :
  forbidden deleteVideo Sample.bobEdits Sample.world /\
  forbidden togglePublishStatus Sample.bobEdits Sample.world /\
  forbidden updateVideo Sample.bobEdits Sample.world.
Proof.
  destruct (@non_owner_mutation_rejected Sample.bobEdits Sample.world Sample.video1)
    as (Hd & Ht & Hu & _).
  - exact sample_validIds.
  - reflexivity.
  - discriminate.
  - repeat split; [exact Hd | exact Ht | apply Hu; reflexivity].
Defined.

(** C2 as stated fails for update: bob is not the owner of the stored video,
    yet an update without a title is answered 400 by the validation, which
    comes before the ownership test. *)
Lemma non_owner_update_without_title_is_400 :
  findVideo (toObjectId (req_videoId Sample.bobEditsNoTitle)) (videos Sample.world)
    = Some Sample.video1 /\
  req_user Sample.bobEditsNoTitle <> Some (owner Sample.video1) /\
  outcome (alone (updateVideo Sample.bobEditsNoTitle) Sample.world)
    = Threw (ApiError 400 "title and description are required") /\
  ~ forbidden updateVideo Sample.bobEditsNoTitle Sample.world.
Proof.
  split; [reflexivity|]. split; [discriminate|]. split; [reflexivity|].
  intros [msg H].
  apply (f_equal (@outcome Response)) in H. discriminate H.
Qed.

(** ** Single-document updates *)

Lemma applyUpdate_id u v : _id (applyUpdate u v) = _id v.
Proof. destruct u; reflexivity. Qed.

Lemma findVideo_updateVideoIn id u vs :
  findVideo id (updateVideoIn id u vs) = option_map (applyUpdate u) (findVideo id vs).
Proof.
  unfold findVideo. induction vs as [|x r IH]; [reflexivity|].
  cbn [updateVideoIn find]. destruct (hasId id x) eqn:E.
  - cbn [find]. unfold hasId in *. rewrite applyUpdate_id, E. reflexivity.
  - cbn [find]. rewrite E. exact IH.
Qed.

Lemma findVideo_removeVideo_unique id vs :
  NoDup (map _id vs) -> findVideo id (removeVideo id vs) = None.
Proof.
  unfold findVideo. induction vs as [|x r IH]; intros Hnd; [reflexivity|].
  cbn [map] in Hnd. apply NoDup_cons_iff in Hnd. destruct Hnd as [Hx Hr].
  cbn [removeVideo]. destruct (hasId id x) eqn:E.
  - destruct (find (hasId id) r) as [y|] eqn:F; [|reflexivity].
    apply find_some in F. destruct F as [Hin Hy].
    unfold hasId in *. apply String.eqb_eq in E, Hy.
    elim Hx. rewrite E, <- Hy. now apply in_map.
  - cbn [find]. rewrite E. now apply IH.
Qed.

Lemma applyUserUpdate_id u x : user_id (applyUserUpdate u x) = user_id x.
Proof. destruct u; reflexivity. Qed.

Lemma findUser_updateUserIn id u us :
  findUser id (updateUserIn id u us) = option_map (applyUserUpdate u) (findUser id us).
Proof.
  unfold findUser. induction us as [|x r IH]; [reflexivity|].
  cbn [updateUserIn find]. destruct (isUser id x) eqn:E.
  - cbn [find]. unfold isUser in *. rewrite applyUserUpdate_id, E. reflexivity.
  - cbn [find]. rewrite E. exact IH.
Qed.

Lemma filter_head_find A (p : A -> bool) l : hd_error (filter p l) = find p l.
Proof.
  induction l as [|x r IH]; [reflexivity|].
  simpl. destruct (p x); [reflexivity | exact IH].
Qed.

Lemma filter_nil_find A (p : A -> bool) l : find p l = None -> filter p l = [].
Proof.
  induction l as [|x r IH]; [reflexivity|].
  simpl. destruct (p x); [discriminate | exact IH].
Qed.

(** ** [$addToSet] *)

Lemma existsb_eqb_In x s : existsb (String.eqb x) s = true <-> In x s.
Proof.
  rewrite existsb_exists. split.
  - intros [y [Hy E]]. apply String.eqb_eq in E. now subst.
  - intros H. exists x. split; [exact H | apply String.eqb_refl].
Qed.

Lemma addToSet_member x s : In x s -> addToSet x s = s.
Proof.
  intros H. unfold addToSet. apply existsb_eqb_In in H. now rewrite H.
Qed.

Lemma addToSet_fresh x s : ~ In x s -> addToSet x s = s ++ [x].
Proof.
  intros H. unfold addToSet. destruct (existsb (String.eqb x) s) eqn:E; [|reflexivity].
  apply existsb_eqb_In in E. contradiction.
Qed.

Lemma addToSet_In x s : In x (addToSet x s).
Proof.
  unfold addToSet. destruct (existsb (String.eqb x) s) eqn:E.
  - now apply existsb_eqb_In.
  - apply in_or_app. right. now left.
Qed.

Lemma addToSet_idempotent x s : addToSet x (addToSet x s) = addToSet x s.
Proof. apply addToSet_member, addToSet_In. Qed.

Lemma addToSet_NoDup x s : NoDup s -> NoDup (addToSet x s).
Proof.
  intros H. unfold addToSet. destruct (existsb (String.eqb x) s) eqn:E; [exact H|].
  apply NoDup_app; [exact H | repeat constructor; intros [] | ].
  intros y Hy [<-|[]]. apply existsb_eqb_In in Hy. congruence.
Qed.

(** ** Video detail *)

(** What a detail request with well-formed identifiers does, whatever the
    store holds. *)
Lemma getVideoById_run (req : Request) w uid :
  isValidObjectId (Some (req_videoId req)) = true ->
  req_user req = Some uid ->
  isValidObjectId (Some uid) = true ->
  alone (getVideoById req) w =
  let vid := req_videoId req in
  let w1 := fst (handle (Video_findByIdAndUpdate vid (IncViews 1) false) w) in
  let w2 := fst (handle (User_findByIdAndUpdate (Some uid) (AddToSetWatchHistory vid)) w1) in
  {| final := w2;
     trace := [Issued (Video_aggregate vid (Some uid));
               Issued (Video_findByIdAndUpdate vid (IncViews 1) false);
               Issued (User_findByIdAndUpdate (Some uid) (AddToSetWatchHistory vid))];
     outcome := Sent {| status := 200;
                        json := newApiResponse 200
                                  (match aggregateDetail w vid (Some uid) with
                                   | d :: _ => DDetail d
                                   | [] => DUndefined
                                   end)
                                  "video details fetched successfully" |} |}.
Proof.
  intros Hv Hu Hvu. unfold alone, getVideoById. cbn zeta.
  rewrite Hv, Hu, Hvu. unfold truthyObject. reflexivity.
Qed.

(** The store after the two writes of a detail request. *)
Lemma getVideoById_final (req : Request) w uid u :
  isValidObjectId (Some (req_videoId req)) = true ->
  req_user req = Some uid ->
  isValidObjectId (Some uid) = true ->
  findUser uid (users w) = Some u ->
  let w' := final (alone (getVideoById req) w) in
  let V := toObjectId (req_videoId req) in
  findVideo V (videos w') = option_map (applyUpdate (IncViews 1)) (findVideo V (videos w)) /\
  findUser uid (users w') =
    Some (applyUserUpdate (AddToSetWatchHistory (req_videoId req)) u).
Proof.
  intros Hv Hu Hvu Hfu. rewrite (getVideoById_run req w Hv Hu Hvu).
  cbn [final handle fst]. 
  destruct (findVideo (toObjectId (req_videoId req)) (videos w)) as [v|] eqn:Hf;
    cbn [fst users with_videos]; rewrite Hfu; cbn [fst videos users with_users with_videos].
  - rewrite findVideo_updateVideoIn, findUser_updateUserIn, Hf, Hfu. split; reflexivity.
  - rewrite findUser_updateUserIn, Hf, Hfu. split; reflexivity.
Qed.

Lemma aggregateDetail_found w s viewer v :
  findVideo (toObjectId s) (videos w) = Some v ->
  exists rest, aggregateDetail w s viewer = detailOf w viewer v :: rest.
Proof.
  intros Hf. unfold aggregateDetail, findVideo in *.
  rewrite <- filter_head_find in Hf.
  destruct (filter (hasId (toObjectId s)) (videos w)) as [|x r]; [discriminate|].
  injection Hf as ->. eexists. reflexivity.
Qed.

Lemma aggregateDetail_none w s viewer :
  findVideo (toObjectId s) (videos w) = None -> aggregateDetail w s viewer = [].
Proof.
  intros Hf. unfold aggregateDetail. now rewrite (filter_nil_find _ _ Hf).
Qed.

(** C10: a detail request for a well-formed identifier that matches no video
    is answered 200 (with no document), after the increment was attempted and
    the identifier was added to the acting user's watch history, which then
    names a video that does not exist. *)
Theorem getVideoById_unknown_video (req : Request) w uid u :
  isValidObjectId (Some (req_videoId req)) = true ->
  req_user req = Some uid ->
  isValidObjectId (Some uid) = true ->
  findUser uid (users w) = Some u ->
  findVideo (toObjectId (req_videoId req)) (videos w) = None ->
  let r := alone (getVideoById req) w in
  let vid := req_videoId req in
  outcome r = detailsFetched DUndefined /\
  trace r = [Issued (Video_aggregate vid (Some uid));
             Issued (Video_findByIdAndUpdate vid (IncViews 1) false);
             Issued (User_findByIdAndUpdate (Some uid) (AddToSetWatchHistory vid))] /\
  videos (final r) = videos w /\
  (exists u', findUser uid (users (final r)) = Some u' /\
              In (toObjectId vid) (watchHistory u')) /\
  findVideo (toObjectId vid) (videos (final r)) = None.
Proof.
  intros Hv Hu Hvu Hfu Hf r vid.
  destruct (getVideoById_final req w Hv Hu Hvu Hfu) as [Hvid Husr].
  fold r in Hvid, Husr. rewrite Hf in Hvid.
  assert (Hr : r = alone (getVideoById req) w) by reflexivity.
  rewrite (getVideoById_run req w Hv Hu Hvu) in Hr.
  cbn zeta in Hr. rewrite (aggregateDetail_none _ _ _ Hf) in Hr.
  repeat split.
  - rewrite Hr. reflexivity.
  - rewrite Hr. reflexivity.
  - rewrite Hr. cbn [final handle]. rewrite Hf. cbn [fst users]. rewrite Hfu. reflexivity.
  - eexists. split; [exact Husr|]. apply addToSet_In.
  - exact Hvid.
Qed.

Lemma getVideoById_unknown_video_witness :
  outcome (alone (getVideoById Sample.bobWatchesGhost) Sample.world)
    = detailsFetched DUndefined /\
  (exists u',
      findUser Sample.bob (users (final (alone (getVideoById Sample.bobWatchesGhost)
                                               Sample.world))) = Some u' /\
      In Sample.ghost (watchHistory u')) /\
  findVideo Sample.ghost
            (videos (final (alone (getVideoById Sample.bobWatchesGhost) Sample.world)))
    = None.
Proof.
  destruct (@getVideoById_unknown_video Sample.bobWatchesGhost
              Sample.world Sample.bob Sample.userB)
    as (Ho & _ & _ & Hh & Hn); try reflexivity.
  split; [exact Ho | split; [exact Hh | exact Hn]].
Defined.

(** C3 at its failing input: no video has the identifier, the aggregation
    gives the empty array, and the request is answered 200 instead of
    failing with 404 or 500. *)
Lemma getVideoById_no_document_is_200 :
  isValidObjectId (Some Sample.ghost) = true /\
  aggregateDetail Sample.world Sample.ghost (Some Sample.bob) = [] /\
  outcome (alone (getVideoById Sample.bobWatchesGhost) Sample.world)
    = detailsFetched DUndefined.
Proof. repeat split. Qed.

Lemma count_occ_addToSet x s :
  count_occ string_dec (addToSet x s) x = Nat.max 1 (count_occ string_dec s x).
Proof.
  destruct (in_dec string_dec x s) as [Hin|Hout].
  - rewrite (addToSet_member _ _ Hin).
    apply (count_occ_In string_dec) in Hin. lia.
  - rewrite (addToSet_fresh _ _ Hout), count_occ_app.
    apply (count_occ_not_In string_dec) in Hout.
    cbn [count_occ]. destruct (string_dec x x); [lia | congruence].
Qed.

(** C7: a detail request that finds video V for user U leaves V with one
    more view and U's watch history with V appended unless it was there; a
    second request in sequence adds one more view and leaves the history as
    the first one left it, so V was added once. *)
Theorem getVideoById_view_and_history (req : Request) w uid u v :
  isValidObjectId (Some (req_videoId req)) = true ->
  req_user req = Some uid ->
  isValidObjectId (Some uid) = true ->
  findUser uid (users w) = Some u ->
  findVideo (toObjectId (req_videoId req)) (videos w) = Some v ->
  let V := toObjectId (req_videoId req) in
  let r1 := alone (getVideoById req) w in
  let r2 := alone (getVideoById req) (final r1) in
  exists v1 u1 v2 u2,
    outcome r1 = detailsFetched (DDetail (detailOf w (Some uid) v)) /\
    findVideo V (videos (final r1)) = Some v1 /\ views v1 = views v + 1 /\
    findUser uid (users (final r1)) = Some u1 /\
    (In V (watchHistory u) -> watchHistory u1 = watchHistory u) /\
    (~ In V (watchHistory u) -> watchHistory u1 = watchHistory u ++ [V]) /\
    outcome r2 = detailsFetched (DDetail (detailOf (final r1) (Some uid) v1)) /\
    findVideo V (videos (final r2)) = Some v2 /\ views v2 = views v + 2 /\
    findUser uid (users (final r2)) = Some u2 /\
    watchHistory u2 = watchHistory u1 /\
    count_occ string_dec (watchHistory u2) V
      = Nat.max 1 (count_occ string_dec (watchHistory u) V).
Proof.
  intros Hv Hu Hvu Hfu Hf V r1 r2.
  destruct (getVideoById_final req w Hv Hu Hvu Hfu) as [Hv1 Hu1].
  rewrite Hf in Hv1. cbn [option_map] in Hv1. fold r1 in Hv1, Hu1.
  destruct (getVideoById_final req (final r1) Hv Hu Hvu Hu1) as [Hv2 Hu2].
  rewrite Hv1 in Hv2. cbn [option_map] in Hv2. fold r2 in Hv2, Hu2.
  destruct (aggregateDetail_found w (req_videoId req) (Some uid) Hf) as [rest1 Ha1].
  destruct (aggregateDetail_found (final r1) (req_videoId req) (Some uid) Hv1)
    as [rest2 Ha2].
  do 4 eexists.
  split; [|split; [exact Hv1|split; [|split; [exact Hu1|split; [|split;
    [|split; [|split; [exact Hv2|split; [|split; [exact Hu2|split]]]]]]]]]].
  - unfold r1. rewrite (getVideoById_run req w Hv Hu Hvu). cbn zeta.
    cbn [outcome]. rewrite Ha1. reflexivity.
  - cbn. lia.
  - intros Hin. cbn. apply addToSet_member, Hin.
  - intros Hout. cbn. apply addToSet_fresh, Hout.
  - unfold r2. rewrite (getVideoById_run req (final r1) Hv Hu Hvu). cbn zeta.
    cbn [outcome]. rewrite Ha2. reflexivity.
  - cbn. lia.
  - cbn. apply addToSet_idempotent.
  - cbn. fold V. rewrite addToSet_idempotent. apply count_occ_addToSet.
Qed.

Lemma getVideoById_view_and_history_witness :
  exists v2 u2,
    findVideo Sample.v1
      (videos (final (alone (getVideoById Sample.bobWatches)
                            (final (alone (getVideoById Sample.bobWatches) Sample.world)))))
      = Some v2 /\
    views v2 = 9 /\
    findUser Sample.bob
      (users (final (alone (getVideoById Sample.bobWatches)
                           (final (alone (getVideoById Sample.bobWatches) Sample.world)))))
      = Some u2 /\
    count_occ string_dec (watchHistory u2) Sample.v1 = 1%nat.
Proof.
  destruct (@getVideoById_view_and_history Sample.bobWatches Sample.world Sample.bob
              Sample.userB Sample.video1)
    as (v1 & u1 & v2 & u2 & _ & _ & _ & _ & _ & _ & _ & Hv2 & Hn & Hu2 & _ & Hc);
    try reflexivity.
  exists v2, u2.
  split; [exact Hv2 | split; [exact Hn | split; [exact Hu2 | exact Hc]]].
Defined.

(** ** Delete *)

Lemma lower_idempotent c : Js.lower (Js.lower c) = Js.lower c.
Proof.
  destruct c as [b0 b1 b2 b3 b4 b5 b6 b7].
  destruct b0, b1, b2, b3, b4, b5, b6, b7; reflexivity.
Qed.

Lemma toObjectId_idempotent s : toObjectId (toObjectId s) = toObjectId s.
Proof.
  unfold toObjectId. induction s as [|c s IH]; [reflexivity|].
  cbn [Js.map]. now rewrite lower_idempotent, IH.
Qed.

Lemma deleteVideo_run (req : Request) w v :
  isValidObjectId (Some (req_videoId req)) = true ->
  findVideo (toObjectId (req_videoId req)) (videos w) = Some v ->
  req_user req = Some (owner v) ->
  alone (deleteVideo req) w =
  let vid := req_videoId req in
  let w1 := with_videos w (removeVideo (toObjectId vid) (videos w)) in
  let w2 := fst (handle (deleteOnCloudinary (public_id (thumbnail v))) w1) in
  let w3 := fst (handle (deleteOnCloudinary (public_id (videoFile v))) w2) in
  let w4 := fst (handle (Like_deleteMany vid) w3) in
  let w5 := fst (handle (Comment_deleteMany vid) w4) in
  {| final := w5;
     trace := [Issued (Video_findById vid);
               Issued (Video_findByIdAndDelete (_id v));
               Issued (deleteOnCloudinary (public_id (thumbnail v)));
               Issued (deleteOnCloudinary (public_id (videoFile v)));
               Issued (Like_deleteMany vid);
               Issued (Comment_deleteMany vid)];
     outcome := videoDeleted |}.
Proof.
  intros Hv Hf Ho.
  destruct (findVideo_hasId _ _ Hf) as [_ Hid].
  unfold alone, deleteVideo. cbn zeta. rewrite Hv. step. rewrite Hf. step.
  rewrite Ho, differs_false. step.
  rewrite Hid, toObjectId_idempotent, Hf. reflexivity.
Qed.

(** *** The media store under a delete *)

Lemma destroy_frame w p :
  videos (fst (destroy w p)) = videos w /\ users (fst (destroy w p)) = users w /\
  likes (fst (destroy w p)) = likes w /\ comments (fst (destroy w p)) = comments w /\
  subscriptions (fst (destroy w p)) = subscriptions w /\
  refused (fst (destroy w p)) = refused w.
Proof.
  unfold destroy. destruct (existsb (String.eqb p) (refused w)); repeat split.
Qed.

Lemma destroy_shrinks w p a : In a (cloud (fst (destroy w p))) -> In a (cloud w).
Proof.
  unfold destroy. destruct (existsb (String.eqb p) (refused w)); cbn; [tauto|].
  intros H. apply filter_In in H. apply H.
Qed.

Lemma destroy_gone w p : ~ In p (refused w) -> ~ In p (cloud (fst (destroy w p))).
Proof.
  intros Hr. unfold destroy.
  destruct (existsb (String.eqb p) (refused w)) eqn:E.
  - apply existsb_eqb_In in E. contradiction.
  - cbn. intros H. apply filter_In in H. destruct H as [_ H].
    now rewrite String.eqb_refl in H.
Qed.

Lemma destroy_keeps w p a : In a (cloud w) -> a <> p -> In a (cloud (fst (destroy w p))).
Proof.
  intros Ha Hne. unfold destroy.
  destruct (existsb (String.eqb p) (refused w)); cbn; [exact Ha|].
  apply filter_In. split; [exact Ha|].
  destruct (String.eqb_spec a p); [contradiction | reflexivity].
Qed.

Lemma destroy_keeps_refused w p a :
  In a (refused w) -> In a (cloud w) -> In a (cloud (fst (destroy w p))).
Proof.
  intros Hr Ha. unfold destroy.
  destruct (existsb (String.eqb p) (refused w)) eqn:E; cbn; [exact Ha|].
  apply filter_In. split; [exact Ha|].
  destruct (String.eqb_spec a p) as [->|]; [|reflexivity].
  apply existsb_eqb_In in Hr. congruence.
Qed.

(** C8 (amended): a delete by the owner issues, in this order, the removal
    of the record, the deletion of the two remote assets, and the removal of
    the likes and of the comments that reference the video, and answers 200.
    Afterwards the store holds no such record, like or comment; each of the
    two assets is gone unless the media store failed to delete it, and an
    asset the media store fails to delete stays, the answer being 200 all the
    same. *)
Theorem deleteVideo_cascade (req : Request) w v :
  validIds w ->
  NoDup (map _id (videos w)) ->
  findVideo (toObjectId (req_videoId req)) (videos w) = Some v ->
  req_user req = Some (owner v) ->
  let r := alone (deleteVideo req) w in
  let vid := req_videoId req in
  outcome r = videoDeleted /\
  trace r = [Issued (Video_findById vid);
             Issued (Video_findByIdAndDelete (_id v));
             Issued (deleteOnCloudinary (public_id (thumbnail v)));
             Issued (deleteOnCloudinary (public_id (videoFile v)));
             Issued (Like_deleteMany vid);
             Issued (Comment_deleteMany vid)] /\
  videos (final r) = removeVideo (toObjectId vid) (videos w) /\
  findVideo (toObjectId vid) (videos (final r)) = None /\
  (~ In (public_id (videoFile v)) (refused w) ->
   ~ In (public_id (videoFile v)) (cloud (final r))) /\
  (~ In (public_id (thumbnail v)) (refused w) ->
   ~ In (public_id (thumbnail v)) (cloud (final r))) /\
  (forall a, In a (refused w) -> In a (cloud w) -> In a (cloud (final r))) /\
  (forall l, In l (likes (final r)) -> like_video l <> toObjectId vid) /\
  (forall c, In c (comments (final r)) -> comment_video c <> toObjectId vid).
Proof.
  intros Hw Hnd Hf Ho r vid.
  pose proof (found_is_valid _ Hw Hf) as Hv.
  unfold r. rewrite (deleteVideo_run req w Hv Hf Ho). cbn zeta.
  cbn [final trace outcome handle fst videos cloud likes comments
       with_likes with_comments].
  set (w1 := with_videos w (removeVideo (toObjectId (req_videoId req)) (videos w))).
  set (w2 := fst (destroy w1 (public_id (thumbnail v)))).
  set (w3 := fst (destroy w2 (public_id (videoFile v)))).
  destruct (destroy_frame w1 (public_id (thumbnail v))) as (Hv2 & _ & Hl2 & Hc2 & _ & Hr2).
  destruct (destroy_frame w2 (public_id (videoFile v))) as (Hv3 & _ & Hl3 & Hc3 & _ & Hr3).
  fold w2 in Hv2, Hl2, Hc2, Hr2. fold w3 in Hv3, Hl3, Hc3, Hr3.
  split; [reflexivity|]. split; [reflexivity|].
  split; [rewrite Hv3, Hv2; reflexivity|].
  split; [rewrite Hv3, Hv2; apply findVideo_removeVideo_unique, Hnd|].
  split; [|split; [|split; [|split]]].
  - intros Hn. apply destroy_gone. now rewrite Hr2.
  - intros Hn Hin. apply destroy_shrinks in Hin. revert Hin. now apply destroy_gone.
  - intros a Ha Hin. apply destroy_keeps_refused; [now rewrite Hr2|].
    now apply destroy_keeps_refused.
  - intros l Hin E. apply filter_In in Hin. destruct Hin as [_ Hin].
    rewrite E, String.eqb_refl in Hin. discriminate.
  - intros c Hin E. apply filter_In in Hin. destruct Hin as [_ Hin].
    rewrite E, String.eqb_refl in Hin. discriminate.
Qed.

Lemma sample_uniqueIds : NoDup (map _id (videos Sample.world)).
Proof.
  repeat constructor; cbn; intros H; repeat (destruct H as [H|H]; [discriminate H|]);
    exact H.
Defined.

Lemma deleteVideo_cascade_witness :
  outcome (alone (deleteVideo Sample.aliceOnV1) Sample.world) = videoDeleted /\
  findVideo Sample.v1 (videos (final (alone (deleteVideo Sample.aliceOnV1) Sample.world)))
    = None /\
  ~ In "file1" (cloud (final (alone (deleteVideo Sample.aliceOnV1) Sample.world))) /\
  ~ In "thumb1" (cloud (final (alone (deleteVideo Sample.aliceOnV1) Sample.world))) /\
  In "thumb1" (cloud (final (alone (deleteVideo Sample.aliceOnV1) Sample.sticky))).
Proof.
  destruct (@deleteVideo_cascade Sample.aliceOnV1 Sample.world Sample.video1)
    as (Ho & _ & _ & Hn & Hf & Ht & _);
    [exact sample_validIds | exact sample_uniqueIds | reflexivity | reflexivity |].
  destruct (@deleteVideo_cascade Sample.aliceOnV1 Sample.sticky Sample.video1)
    as (_ & _ & _ & _ & _ & _ & Hk & _);
    [exact sample_validIds | exact sample_uniqueIds | reflexivity | reflexivity |].
  split; [exact Ho|]. split; [exact Hn|].
  split; [refine (Hf _); cbn; tauto|]. split; [refine (Ht _); cbn; tauto|].
  apply Hk; cbn; tauto.
Defined.

(** C8 as stated fails when the media store does not delete an asset: the
    owner's delete is answered 200, the record is gone, and the thumbnail is
    still in the media store, because the answer of [deleteOnCloudinary] is
    not looked at. *)
Lemma deleteVideo_answers_200_asset_kept :
  findVideo (toObjectId (req_videoId Sample.aliceOnV1)) (videos Sample.sticky)
    = Some Sample.video1 /\
  req_user Sample.aliceOnV1 = Some (owner Sample.video1) /\
  snd (handle (deleteOnCloudinary (public_id (thumbnail Sample.video1))) Sample.sticky)
    = false /\
  outcome (alone (deleteVideo Sample.aliceOnV1) Sample.sticky) = videoDeleted /\
  findVideo Sample.v1 (videos (final (alone (deleteVideo Sample.aliceOnV1) Sample.sticky)))
    = None /\
  In (public_id (thumbnail Sample.video1))
     (cloud (final (alone (deleteVideo Sample.aliceOnV1) Sample.sticky))).
Proof.
  repeat split. vm_compute. left. reflexivity.
Qed.

(** ** Publish toggle *)

Lemma togglePublishStatus_run (req : Request) w v :
  isValidObjectId (Some (req_videoId req)) = true ->
  findVideo (toObjectId (req_videoId req)) (videos w) = Some v ->
  req_user req = Some (owner v) ->
  alone (togglePublishStatus req) w =
  let vid := req_videoId req in
  let u := SetIsPublished (negb (isPublished v)) in
  {| final := with_videos w (updateVideoIn (toObjectId vid) u (videos w));
     trace := [Issued (Video_findById vid); Issued (Video_findByIdAndUpdate vid u true)];
     outcome := toggled (negb (isPublished v)) |}.
Proof.
  intros Hv Hf Ho.
  unfold alone, togglePublishStatus. cbn zeta. rewrite Hv. step. rewrite Hf. step.
  rewrite Ho, differs_false. step. rewrite Hf. reflexivity.
Qed.

Lemma setIsPublished_back v :
  applyUpdate (SetIsPublished (isPublished v))
              (applyUpdate (SetIsPublished (negb (isPublished v))) v) = v.
Proof. destruct v; reflexivity. Qed.

Lemma updateVideoIn_back id vs v :
  findVideo id vs = Some v ->
  updateVideoIn id (SetIsPublished (isPublished v))
                (updateVideoIn id (SetIsPublished (negb (isPublished v))) vs) = vs.
Proof.
  unfold findVideo. induction vs as [|x r IH]; [discriminate|].
  cbn [find updateVideoIn]. destruct (hasId id x) eqn:E.
  - intros H. injection H as ->. cbn [updateVideoIn].
    unfold hasId in *. rewrite applyUpdate_id, E. now rewrite setIsPublished_back.
  - intros H. cbn [updateVideoIn]. rewrite E. now rewrite IH.
Qed.

Lemma with_videos_again w a b : with_videos (with_videos w a) b = with_videos w b.
Proof. reflexivity. Qed.

Lemma with_videos_same w : with_videos w (videos w) = w.
Proof. destruct w; reflexivity. Qed.

(** C9: a toggle by the owner stores the negated flag and answers with that
    flag alone; a second toggle in sequence answers with the original flag
    and leaves the store as it was before the first. *)
Theorem togglePublishStatus_involution (req : Request) w v :
  validIds w ->
  findVideo (toObjectId (req_videoId req)) (videos w) = Some v ->
  req_user req = Some (owner v) ->
  let r1 := alone (togglePublishStatus req) w in
  let r2 := alone (togglePublishStatus req) (final r1) in
  outcome r1 = toggled (negb (isPublished v)) /\
  findVideo (toObjectId (req_videoId req)) (videos (final r1))
    = Some (applyUpdate (SetIsPublished (negb (isPublished v))) v) /\
  outcome r2 = toggled (isPublished v) /\
  final r2 = w.
Proof.
  intros Hw Hf Ho r1 r2.
  pose proof (found_is_valid _ Hw Hf) as Hv.
  assert (H1 : r1 = alone (togglePublishStatus req) w) by reflexivity.
  rewrite (togglePublishStatus_run req w Hv Hf Ho) in H1. cbn zeta in H1.
  assert (Hf1 : findVideo (toObjectId (req_videoId req)) (videos (final r1))
                = Some (applyUpdate (SetIsPublished (negb (isPublished v))) v)).
  { rewrite H1. cbn [final videos with_videos].
    now rewrite findVideo_updateVideoIn, Hf. }
  assert (H2 : r2 = alone (togglePublishStatus req) (final r1)) by reflexivity.
  rewrite (togglePublishStatus_run req (final r1) Hv Hf1 Ho) in H2. cbn zeta in H2.
  cbn [applyUpdate isPublished] in H2. rewrite negb_involutive in H2.
  split; [rewrite H1; reflexivity|]. split; [exact Hf1|].
  split; [rewrite H2; reflexivity|].
  rewrite H2. cbn [final]. rewrite H1. cbn [final videos with_videos].
  rewrite with_videos_again, (updateVideoIn_back _ _ Hf). apply with_videos_same.
Qed.

Lemma togglePublishStatus_involution_witness :
  outcome (alone (togglePublishStatus Sample.aliceOnV1) Sample.world) = toggled false /\
  outcome (alone (togglePublishStatus Sample.aliceOnV1)
                 (final (alone (togglePublishStatus Sample.aliceOnV1) Sample.world)))
    = toggled true /\
  final (alone (togglePublishStatus Sample.aliceOnV1)
               (final (alone (togglePublishStatus Sample.aliceOnV1) Sample.world)))
    = Sample.world.
Proof.
  destruct (@togglePublishStatus_involution Sample.aliceOnV1 Sample.world Sample.video1)
    as (H1 & _ & H2 & H3).
  - exact sample_validIds.
  - reflexivity.
  - reflexivity.
  - split; [exact H1 | split; [exact H2 | exact H3]].
Defined.

(** ** Update *)

(** With no other request in flight the owner's update stores the new
    details and removes the old thumbnail after the write. *)
Lemma updateVideo_alone_sample :
  exists a,
    trace (alone (updateVideo Sample.aliceUpdates) Sample.world)
      = [Issued (Video_findById Sample.v1);
         Issued (uploadOnCloudinary "/tmp/new.png");
         Issued (Video_findByIdAndUpdate Sample.v1 (SetDetails "t" "d" a) true);
         Issued (deleteOnCloudinary "thumb1")] /\
    outcome (alone (updateVideo Sample.aliceUpdates) Sample.world)
      = videoUpdated (DVideo (applyUpdate (SetDetails "t" "d" a) Sample.video1)).
Proof. eexists. split; reflexivity. Qed.

(** C4 at its failing input: the record is deleted by another request after
    the handler read it and before it writes.  The write returns no record,
    yet the answer is 200 with [null] and the old thumbnail is removed from
    the media store: both tests of the write read the handler [updateVideo],
    which is always truthy. *)
Lemma updateVideo_failed_write_is_200 :
  exists a,
    snd (handle (Video_findByIdAndUpdate Sample.v1 (SetDetails "t" "d" a) true)
                (interfere (RacingDelete Sample.v1) Sample.world)) = None /\
    trace (run (updateVideo Sample.aliceUpdates)
               [Quiet; Quiet; RacingDelete Sample.v1] Sample.world)
      = [Issued (Video_findById Sample.v1);
         Issued (uploadOnCloudinary "/tmp/new.png");
         Issued (Video_findByIdAndUpdate Sample.v1 (SetDetails "t" "d" a) true);
         Issued (deleteOnCloudinary "thumb1")] /\
    outcome (run (updateVideo Sample.aliceUpdates)
                 [Quiet; Quiet; RacingDelete Sample.v1] Sample.world)
      = videoUpdated DNull /\
    In "thumb1" (cloud Sample.world) /\
    ~ In "thumb1" (cloud (final (run (updateVideo Sample.aliceUpdates)
                                     [Quiet; Quiet; RacingDelete Sample.v1]
                                     Sample.world))).
Proof.
  eexists. split; [reflexivity|]. split; [reflexivity|]. split; [reflexivity|].
  split; [cbn; tauto|].
  cbn. intros H. repeat (destruct H as [H|H]; [discriminate H|]). exact H.
Qed.

(** ** Ingestion *)

(** A title or description that is present and blank is refused before any
    call is issued. *)
Lemma publishAVideo_blank_refused (req : Request) sched w :
  blank (body_title (req_body req)) || blank (body_description (req_body req)) = true ->
  run (publishAVideo req) sched w =
  {| final := w; trace := [];
     outcome := Threw (ApiError 400 "All fields are required") |}.
Proof.
  intros H. unfold publishAVideo. cbn zeta. cbn [existsb].
  rewrite orb_false_r, H. reflexivity.
Qed.

(** An absent field is not blank: the guard lets it through. *)
Lemma blank_undefined : blank None = false.
Proof. reflexivity. Qed.

(** C5 at its failing input: the body has no title.  The guard does not
    fire, both files are uploaded, and the request fails only when the record
    is created; the two assets stay in the media store. *)
Lemma publishAVideo_missing_title_uploads :
  body_title (req_body Sample.publishNoTitle) = None /\
  (exists rest,
      trace (alone (publishAVideo Sample.publishNoTitle) Sample.world)
        = Issued (uploadOnCloudinary "/tmp/new.mp4")
          :: Issued (uploadOnCloudinary "/tmp/new.png") :: rest) /\
  outcome (alone (publishAVideo Sample.publishNoTitle) Sample.world)
    = Threw (SchemaError "Video validation failed") /\
  List.length (cloud (final (alone (publishAVideo Sample.publishNoTitle) Sample.world)))
    = (List.length (cloud Sample.world) + 2)%nat /\
  outcome (alone (publishAVideo Sample.publishBlankTitle) Sample.world)
    = Threw (ApiError 400 "All fields are required").
Proof.
  split; [reflexivity|]. split; [eexists; reflexivity|]. repeat split.
Qed.

(** Whatever the world answers, a request without a title whose files are
    both staged starts by uploading the video file. *)
Lemma publishAVideo_missing_title_first_call (req : Request) sched w vf th fs :
  body_title (req_body req) = None ->
  blank (body_description (req_body req)) = false ->
  req_files req = Some fs ->
  files_videoFile fs = Some [vf] ->
  files_thumbnail fs = Some [th] ->
  path vf <> "" -> path th <> "" ->
  exists rest,
    trace (run (publishAVideo req) sched w)
      = Issued (uploadOnCloudinary (path vf)) :: rest.
Proof.
  intros Ht Hd Hfs Hvf Hth Hpv Hpt.
  unfold publishAVideo. cbn zeta. cbn [existsb]. rewrite Ht, Hd, Hfs. cbn [blank orb].
  step. unfold firstPath. rewrite Hvf, Hth. step.
  destruct (path vf) as [|c1 s1] eqn:E1; [congruence|].
  destruct (path th) as [|c2 s2] eqn:E2; [congruence|].
  cbn [Js.truthy]. step. eexists. reflexivity.
Qed.

(** C6 at its failing input: the files hold a video file and no thumbnail.
    Reading [req.files.thumbnail[0]] throws a TypeError before the guard
    that would have thrown the ApiError 400. *)
Lemma publishAVideo_missing_thumbnail_is_TypeError :
  files_thumbnail Sample.videoFileOnly = None /\
  run (publishAVideo Sample.publishNoThumbnail) [] Sample.world =
  {| final := Sample.world; trace := [];
     outcome := Threw (TypeError "Cannot read properties of undefined (reading '0')") |}.
Proof. split; reflexivity. Qed.

(** The guard does answer 400 when no file at all came with the request. *)
Lemma publishAVideo_no_files_is_400 :
  outcome (alone (publishAVideo (Sample.withFiles Sample.publishNoThumbnail None))
                 Sample.world)
    = Threw (ApiError 400 "video file local path is required").
Proof. reflexivity. Qed.

(** * Further properties of the handlers *)

(** ** Listing: guards, filters and order *)

(** X1: a list request whose [userId] is given and is not a well-formed
    identifier is refused with 400 before the database is asked anything. *)
Theorem getAllVideos_invalid_userId (req : Request) :
  Js.truthy (userId (req_query req)) = true ->
  isValidObjectId (userId (req_query req)) = false ->
  refusedAtOnce (getAllVideos req) 400 "Invalid userId".
Proof.
  intros Ht Hv sched w. unfold getAllVideos. cbn zeta. rewrite Ht, Hv. reflexivity.
Qed.

Lemma getAllVideos_invalid_userId_witness :
  refusedAtOnce (getAllVideos (Sample.withQuery Sample.listByAlice (Some "alice")))
                400 "Invalid userId".
Proof.
  apply getAllVideos_invalid_userId; reflexivity.
Defined.

(** X2: any other list request is answered 200 with a page, also when
    nothing matches; it issues the one paginated aggregation and leaves the
    world as it was. *)
Theorem getAllVideos_answered (req : Request) w :
  Js.truthy (userId (req_query req)) = false \/
  isValidObjectId (userId (req_query req)) = true ->
  exists pipeline o,
    alone (getAllVideos req) w =
    {| final := w;
       trace := [Issued (Video_aggregatePaginate pipeline o)];
       outcome := videosFetched (paginate o (aggregate w pipeline)) |}.
Proof.
  intros H. unfold alone, getAllVideos. cbn zeta.
  destruct (Js.truthy (userId (req_query req))) eqn:Ht.
  - destruct H as [H|H]; [discriminate|]. rewrite H. step.
    do 2 eexists. reflexivity.
  - step. do 2 eexists. reflexivity.
Qed.

Lemma getAllVideos_answered_witness :
  exists pipeline o,
    alone (getAllVideos (Sample.withQuery Sample.listByAlice (Some Sample.ghost)))
          Sample.world =
    {| final := Sample.world;
       trace := [Issued (Video_aggregatePaginate pipeline o)];
       outcome := videosFetched (paginate o (aggregate Sample.world pipeline)) |}.
Proof.
  apply getAllVideos_answered. right. reflexivity.
Defined.

(** Whatever holds of the video of every document survives the stages that
    keep the videos, and the cut of a page. *)
Section KeptByStages.

Variable P : Doc -> Prop.
Hypothesis P_doc : forall a b, doc a = doc b -> P a -> P b.

Lemma insertBy_Forall le x l : P x -> Forall P l -> Forall P (insertBy le x l).
Proof.
  intros Hx Hl. induction Hl as [|y r Hy Hr IH]; cbn [insertBy].
  - repeat constructor. exact Hx.
  - destruct (le x y); repeat constructor; assumption.
Qed.

Lemma sortDocs_Forall le l : Forall P l -> Forall P (sortDocs le l).
Proof.
  induction 1 as [|x r Hx Hr IH]; cbn [sortDocs fold_right].
  - constructor.
  - apply insertBy_Forall; assumption.
Qed.

Lemma runStage_Forall w st ds :
  keepsVideos st = true -> Forall P ds -> Forall P (runStage w st ds).
Proof.
  intros Hst Hds. destruct st; cbn [keepsVideos runStage] in *; try discriminate.
  - rewrite Forall_forall in *. intros d Hd. apply filter_In in Hd. apply Hds, Hd.
  - rewrite Forall_forall in *. intros d Hd. apply filter_In in Hd. apply Hds, Hd.
  - apply sortDocs_Forall, Hds.
  - rewrite Forall_forall in *. intros d Hd.
    apply in_map_iff in Hd. destruct Hd as [d0 [<- Hd0]].
    apply (@P_doc d0); [reflexivity | apply Hds, Hd0].
  - rewrite Forall_forall in *. intros d Hd.
    apply in_flat_map in Hd. destruct Hd as [d0 [Hd0 Hd]].
    apply in_map_iff in Hd. destruct Hd as [o [<- _]].
    apply (@P_doc d0); [reflexivity | apply Hds, Hd0].
Qed.

Lemma stages_Forall w post : forall ds,
  forallb keepsVideos post = true -> Forall P ds ->
  Forall P (fold_left (fun ds st => runStage w st ds) post ds).
Proof.
  induction post as [|st post IH]; cbn [fold_left forallb]; intros ds Hp Hds.
  - exact Hds.
  - apply andb_true_iff in Hp. destruct Hp as [Hst Hp].
    apply IH; [exact Hp|]. apply runStage_Forall; assumption.
Qed.

End KeptByStages.

Lemma firstn_Forall A (P : A -> Prop) n : forall l, Forall P l -> Forall P (firstn n l).
Proof.
  induction n as [|n IH]; intros l Hl; cbn [firstn].
  - constructor.
  - destruct Hl as [|x r Hx Hr]; constructor; [exact Hx | apply IH, Hr].
Qed.

Lemma skipn_Forall A (P : A -> Prop) n : forall l, Forall P l -> Forall P (skipn n l).
Proof.
  induction n as [|n IH]; intros l Hl; cbn [skipn].
  - exact Hl.
  - destruct Hl as [|x r Hx Hr]; [constructor | apply IH, Hr].
Qed.

Lemma paginate_Forall (P : Doc -> Prop) o all :
  Forall P all -> Forall P (docs (paginate o all)).
Proof.
  intros H. unfold paginate. cbn [docs]. apply firstn_Forall, skipn_Forall, H.
Qed.

(** The page a list request was answered with. *)
Lemma getAllVideos_page (req : Request) w r :
  outcome (alone (getAllVideos req) w) = Sent r ->
  exists pre sort o,
    data (json r)
      = DPage (paginate o (aggregate w (((pre ++ [MatchIsPublished true]) ++ [sort])
                                          ++ [LookupOwnerDetails; UnwindOwnerDetails]))) /\
    (Js.truthy (userId (req_query req)) = true ->
     exists pre', pre = pre' ++ [MatchOwner (toObjectId (str (userId (req_query req))))]) /\
    sort = (if Js.truthy (sortBy (req_query req)) && Js.truthy (sortType (req_query req))
            then Sort (str (sortBy (req_query req)))
                      (if String.eqb (str (sortType (req_query req))) "asc" then 1 else -1)
            else Sort "createdAt" (-1)).
Proof.
  unfold alone, getAllVideos. cbn zeta.
  destruct (Js.truthy (userId (req_query req)));
    [destruct (isValidObjectId (userId (req_query req)))|];
    destruct (Js.truthy (sortBy (req_query req)) && Js.truthy (sortType (req_query req)));
    step; intros H; try discriminate H; injection H as <-;
    cbn [json data newApiResponse]; do 3 eexists;
    (split; [reflexivity|]); (split; [|reflexivity]); intros Ht; try discriminate Ht;
    eexists; reflexivity.
Qed.

(** X3: when a [userId] is given, every video of the page is owned by that
    user. *)
Theorem getAllVideos_owner_filter (req : Request) w r :
  Js.truthy (userId (req_query req)) = true ->
  outcome (alone (getAllVideos req) w) = Sent r ->
  exists p, data (json r) = DPage p /\
            Forall (fun d => owner (doc d) = toObjectId (str (userId (req_query req))))
                   (docs p).
Proof.
  intros Ht Hr.
  destruct (getAllVideos_page req w Hr) as (pre & srt & o & Hd & Hpre & Hs).
  destruct (Hpre Ht) as [pre' ->]. rewrite Hs in Hd. clear Hs Hpre.
  eexists. split; [exact Hd|]. apply paginate_Forall.
  rewrite <- !app_assoc. rewrite app_assoc.
  unfold aggregate. rewrite fold_left_app.
  apply stages_Forall.
  - intros a b E. now rewrite E.
  - destruct (Js.truthy (sortBy (req_query req)) && Js.truthy (sortType (req_query req)));
      reflexivity.
  - rewrite fold_left_app. cbn [fold_left runStage].
    rewrite Forall_forall. intros d Hin. apply filter_In in Hin.
    destruct Hin as [_ Hin]. now apply String.eqb_eq.
Qed.

Lemma getAllVideos_owner_filter_witness :
  exists r, outcome (alone (getAllVideos Sample.listByAlice) Sample.world) = Sent r /\
  exists p, data (json r) = DPage p /\
            Forall (fun d => owner (doc d) = Sample.alice) (docs p).
Proof.
  eexists. split; [reflexivity|].
  apply (@getAllVideos_owner_filter Sample.listByAlice Sample.world); reflexivity.
Defined.

(** X4: every listed video comes with exactly one owner entry, the name and
    avatar of a stored user whose identifier is the video's owner; a video
    whose owner is not stored is not listed. *)
Theorem getAllVideos_owner_joined (req : Request) w r :
  outcome (alone (getAllVideos req) w) = Sent r ->
  exists p, data (json r) = DPage p /\ Forall (ownerJoined w) (docs p).
Proof.
  intros Hr.
  destruct (getAllVideos_page req w Hr) as (pre & srt & o & Hd & _ & _).
  eexists. split; [exact Hd|]. apply paginate_Forall.
  unfold aggregate. rewrite fold_left_app. cbn [fold_left runStage].
  rewrite Forall_forall. intros d Hin.
  apply in_flat_map in Hin. destruct Hin as [d1 [Hd1 Hin]].
  apply in_map_iff in Hin. destruct Hin as [s [<- Hs]].
  apply in_map_iff in Hd1. destruct Hd1 as [d0 [<- _]].
  cbn [ownerDetails doc] in *.
  apply in_map_iff in Hs. destruct Hs as [u [<- Hu]].
  apply filter_In in Hu. destruct Hu as [Hu Hid].
  exists u. split; [exact Hu|]. split; [|reflexivity].
  now apply String.eqb_eq.
Qed.

Lemma getAllVideos_owner_joined_witness :
  exists r, outcome (alone (getAllVideos Sample.listByAlice) Sample.world) = Sent r /\
  exists p, data (json r) = DPage p /\ Forall (ownerJoined Sample.world) (docs p).
Proof.
  eexists. split; [reflexivity|].
  apply (@getAllVideos_owner_joined Sample.listByAlice Sample.world); reflexivity.
Defined.

(** *** Order of the page *)

Section SortedBy.

Variable le : Doc -> Doc -> bool.
Hypothesis le_total : forall a b, le a b = true \/ le b a = true.
Hypothesis le_trans : forall a b c, le a b = true -> le b c = true -> le a c = true.

Let R (a b : Doc) : Prop := le a b = true.

Lemma insertBy_sorted x l : StronglySorted R l -> StronglySorted R (insertBy le x l).
Proof.
  induction 1 as [|y r Hr IH Hy]; cbn [insertBy].
  - repeat constructor.
  - destruct (le x y) eqn:E.
    + constructor; [constructor; assumption|].
      constructor; [exact E|].
      rewrite Forall_forall in *. intros z Hz. apply (@le_trans x y z E), Hy, Hz.
    + constructor; [exact IH|]. apply insertBy_Forall; [|exact Hy].
      destruct (le_total x y) as [H|H]; [congruence | exact H].
Qed.

Lemma sortDocs_sorted l : StronglySorted R (sortDocs le l).
Proof.
  induction l as [|x r IH]; cbn [sortDocs fold_right].
  - constructor.
  - apply insertBy_sorted, IH.
Qed.

End SortedBy.

Lemma sorted_weaken (R1 R2 : Doc -> Doc -> Prop) l :
  (forall a b, R1 a b -> R2 a b) -> StronglySorted R1 l -> StronglySorted R2 l.
Proof.
  intros H. induction 1 as [|x r Hr IH Hx]; constructor; [exact IH|].
  eapply Forall_impl; [|exact Hx]. intros b. apply H.
Qed.

Section OrderKept.

Variable R : Doc -> Doc -> Prop.
Hypothesis R_doc : forall a a' b b', doc a = doc a' -> doc b = doc b' -> R a b -> R a' b'.
Hypothesis R_refl : forall a, R a a.

Lemma lookup_keeps_order w ds :
  StronglySorted R ds -> StronglySorted R (runStage w LookupOwnerDetails ds).
Proof.
  cbn [runStage]. induction 1 as [|x r Hr IH Hx]; cbn [map]; constructor.
  - exact IH.
  - rewrite Forall_forall in *. intros d Hd.
    apply in_map_iff in Hd. destruct Hd as [d0 [<- Hd0]].
    apply (@R_doc x _ d0 _); [reflexivity | reflexivity | apply Hx, Hd0].
Qed.

Lemma unwind_keeps_order w ds :
  StronglySorted R ds -> StronglySorted R (runStage w UnwindOwnerDetails ds).
Proof.
  cbn [runStage]. induction 1 as [|x r Hr IH Hx]; cbn [flat_map]; [constructor|].
  induction (ownerDetails x) as [|o os IHo]; cbn [map app]; [exact IH|].
  constructor; [exact IHo|].
  apply Forall_app. split.
  - rewrite Forall_forall. intros d Hd.
    apply in_map_iff in Hd. destruct Hd as [o' [<- _]].
    apply (@R_doc x _ x _); [reflexivity | reflexivity | apply R_refl].
  - rewrite Forall_forall in *. intros d Hd.
    apply in_flat_map in Hd. destruct Hd as [d0 [Hd0 Hd]].
    apply in_map_iff in Hd. destruct Hd as [o' [<- _]].
    apply (@R_doc x _ d0 _); [reflexivity | reflexivity | apply Hx, Hd0].
Qed.

Lemma skipn_keeps_order n : forall l, StronglySorted R l -> StronglySorted R (skipn n l).
Proof.
  induction n as [|n IH]; intros l Hl; cbn [skipn]; [exact Hl|].
  destruct Hl as [|x r Hr Hx]; [constructor | apply IH, Hr].
Qed.

Lemma firstn_keeps_order n : forall l, StronglySorted R l -> StronglySorted R (firstn n l).
Proof.
  induction n as [|n IH]; intros l Hl; cbn [firstn]; [constructor|].
  destruct Hl as [|x r Hr Hx]; constructor.
  - apply IH, Hr.
  - apply firstn_Forall, Hx.
Qed.

(** A pipeline that ends with a sort, the owner lookup and the unwind gives
    pages in the order of the sort. *)
Lemma sorted_page w pre f dir o :
  (forall a b, docLeb f dir a b = true <-> R a b) ->
  (forall a b, R a b \/ R b a) ->
  (forall a b c, R a b -> R b c -> R a c) ->
  StronglySorted R
    (docs (paginate o (aggregate w ((pre ++ [Sort f dir])
                                      ++ [LookupOwnerDetails; UnwindOwnerDetails])))).
Proof.
  intros Hle Htot Htr.
  unfold paginate. cbn [docs]. apply firstn_keeps_order, skipn_keeps_order.
  unfold aggregate. rewrite !fold_left_app. cbn [fold_left].
  apply unwind_keeps_order, lookup_keeps_order.
  cbn [runStage].
  apply (@sorted_weaken (fun a b => docLeb f dir a b = true)).
  - intros a b H. now apply Hle.
  - apply sortDocs_sorted.
    + intros a b. destruct (Htot a b) as [H|H]; [left | right]; now apply Hle.
    + intros a b c Hab Hbc. apply Hle. apply (Htr a b c); now apply Hle.
Qed.

End OrderKept.

(** X5: asked to sort by views ascending, the page comes with view counts
    that never decrease. *)
Theorem getAllVideos_sorted_by_views (req : Request) w r :
  sortBy (req_query req) = Some "views" ->
  sortType (req_query req) = Some "asc" ->
  outcome (alone (getAllVideos req) w) = Sent r ->
  exists p, data (json r) = DPage p /\ StronglySorted byViews (docs p).
Proof.
  intros Hb Ht Hr.
  destruct (getAllVideos_page req w Hr) as (pre & srt & o & Hd & _ & Hs).
  rewrite Hb, Ht in Hs. cbn in Hs. subst srt.
  eexists. split; [exact Hd|]. unfold byViews.
  apply sorted_page.
  - intros a a' b b' Ea Eb. now rewrite Ea, Eb.
  - intros a. lia.
  - intros a b. unfold docLeb. cbn. apply Z.leb_le.
  - intros a b. lia.
  - intros a b c. lia.
Qed.

Lemma getAllVideos_sorted_by_views_witness :
  exists r, outcome (alone (getAllVideos Sample.listByAlice) Sample.busy) = Sent r /\
  exists p, data (json r) = DPage p /\ List.length (docs p) = 2%nat /\
            StronglySorted byViews (docs p).
Proof.
  eexists. split; [reflexivity|].
  destruct (@getAllVideos_sorted_by_views Sample.listByAlice Sample.busy _
              eq_refl eq_refl eq_refl) as (p & Hp & Hs).
  exists p. split; [exact Hp|]. split; [|exact Hs].
  injection Hp as <-. reflexivity.
Defined.

(** X6: without both a sort field and a sort direction the page comes newest
    first, whatever else was asked. *)
Theorem getAllVideos_newest_first (req : Request) w r :
  Js.truthy (sortBy (req_query req)) && Js.truthy (sortType (req_query req)) = false ->
  outcome (alone (getAllVideos req) w) = Sent r ->
  exists p, data (json r) = DPage p /\ StronglySorted newestFirst (docs p).
Proof.
  intros Hb Hr.
  destruct (getAllVideos_page req w Hr) as (pre & srt & o & Hd & _ & Hs).
  rewrite Hb in Hs. subst srt.
  eexists. split; [exact Hd|]. unfold newestFirst.
  apply sorted_page.
  - intros a a' b b' Ea Eb. now rewrite Ea, Eb.
  - intros a. lia.
  - intros a b. unfold docLeb. cbn. apply Z.leb_le.
  - intros a b. lia.
  - intros a b c. lia.
Qed.

Lemma getAllVideos_newest_first_witness :
  exists r, outcome (alone (getAllVideos (Sample.request None "")) Sample.busy) = Sent r /\
  exists p, data (json r) = DPage p /\
            map (fun x => _id (doc x)) (docs p) = [Sample.v2; Sample.v1] /\
            StronglySorted newestFirst (docs p).
Proof.
  eexists. split; [reflexivity|].
  destruct (@getAllVideos_newest_first (Sample.request None "") Sample.busy _
              eq_refl eq_refl) as (p & Hp & Hs).
  exists p. split; [exact Hp|]. split; [|exact Hs].
  injection Hp as <-. reflexivity.
Defined.

(** ** Guards on identifiers *)

(** X7: a detail request is refused with 400 before anything is read or
    written when the video identifier is malformed, and likewise when the
    acting user is absent or has a malformed identifier. *)
Theorem getVideoById_invalid_ids (req : Request) :
  (isValidObjectId (Some (req_videoId req)) = false ->
   refusedAtOnce (getVideoById req) 400 "Invalid videoId") /\
  (isValidObjectId (Some (req_videoId req)) = true ->
   isValidObjectId (req_user req) = false ->
   refusedAtOnce (getVideoById req) 400 "Invalid userId").
Proof.
  split.
  - intros Hv sched w. unfold getVideoById. cbn zeta. rewrite Hv. reflexivity.
  - intros Hv Hu sched w. unfold getVideoById. cbn zeta. rewrite Hv, Hu. reflexivity.
Qed.

Lemma getVideoById_invalid_ids_witness :
  refusedAtOnce (getVideoById (Sample.request (Some Sample.bob) "not-an-id"))
                400 "Invalid videoId" /\
  refusedAtOnce (getVideoById (Sample.request None Sample.v1)) 400 "Invalid userId".
Proof.
  split.
  - apply (proj1 (getVideoById_invalid_ids (Sample.request (Some Sample.bob) "not-an-id"))).
    reflexivity.
  - apply (proj2 (getVideoById_invalid_ids (Sample.request None Sample.v1)));
      reflexivity.
Defined.

(** X8: update, delete and publish-toggle refuse a malformed video identifier
    with 400 before anything is read or written, whoever asks and whatever the
    body holds. *)
Theorem mutation_invalid_videoId (req : Request) :
  isValidObjectId (Some (req_videoId req)) = false ->
  refusedAtOnce (updateVideo req) 400 "Invalid videoId" /\
  refusedAtOnce (deleteVideo req) 400 "Invalid videoId" /\
  refusedAtOnce (togglePublishStatus req) 400 "Invalid videoId".
Proof.
  intros Hv. repeat split; intros sched w;
    unfold updateVideo, deleteVideo, togglePublishStatus; cbn zeta; rewrite Hv;
    reflexivity.
Qed.

Lemma mutation_invalid_videoId_witness :
  refusedAtOnce (updateVideo (Sample.request (Some Sample.alice) "64b")) 400 "Invalid videoId" /\
  refusedAtOnce (deleteVideo (Sample.request (Some Sample.alice) "64b")) 400 "Invalid videoId" /\
  refusedAtOnce (togglePublishStatus (Sample.request (Some Sample.alice) "64b"))
                400 "Invalid videoId".
Proof.
  apply mutation_invalid_videoId. reflexivity.
Defined.

(** X9: on a well-formed identifier that no stored video has, delete answers
    400 and publish-toggle 404, and so does an update with title and
    description (400); each has only read, and nothing is changed. *)
Theorem mutation_unknown_video (req : Request) w :
  isValidObjectId (Some (req_videoId req)) = true ->
  findVideo (toObjectId (req_videoId req)) (videos w) = None ->
  refusedAfterRead deleteVideo req w 400 "video not found" /\
  refusedAfterRead togglePublishStatus req w 404 "Video not found" /\
  (Js.truthy (body_title (req_body req)) && Js.truthy (body_description (req_body req)) = true ->
   refusedAfterRead updateVideo req w 400 "video not found").
Proof.
  intros Hv Hf.
  unfold refusedAfterRead, alone, deleteVideo, togglePublishStatus, updateVideo.
  cbn zeta. rewrite Hv. step. rewrite Hf.
  split; [reflexivity|]. split; [reflexivity|].
  intros Ht. rewrite Ht. step. rewrite Hf. reflexivity.
Qed.

Lemma mutation_unknown_video_witness :
  refusedAfterRead deleteVideo (Sample.request (Some Sample.alice) Sample.ghost)
                   Sample.world 400 "video not found" /\
  refusedAfterRead togglePublishStatus (Sample.request (Some Sample.alice) Sample.ghost)
                   Sample.world 404 "Video not found".
Proof.
  destruct (@mutation_unknown_video (Sample.request (Some Sample.alice) Sample.ghost)
              Sample.world) as (Hd & Ht & _); try reflexivity.
  split; [exact Hd | exact Ht].
Defined.

(** ** Update by the owner *)

Lemma upload_none w p : snd (upload w p) = None -> fst (upload w p) = w.
Proof.
  unfold upload. destruct (find _ (staged w)) as [[q seconds]|]; [discriminate|reflexivity].
Qed.

Lemma upload_some w p w1 up :
  upload w p = (w1, Some up) ->
  videos w1 = videos w /\ users w1 = users w /\ likes w1 = likes w /\
  comments w1 = comments w /\ cloud w1 = cloud w ++ [up_public_id up].
Proof.
  unfold upload. destruct (find _ (staged w)) as [[q seconds]|]; [|discriminate].
  intros H. injection H as <- <-. repeat split.
Qed.

(** X10: the owner's update without a thumbnail file is refused with 400
    after the video was read; nothing is uploaded or written. *)
Theorem updateVideo_needs_thumbnail (req : Request) w v :
  validIds w ->
  findVideo (toObjectId (req_videoId req)) (videos w) = Some v ->
  req_user req = Some (owner v) ->
  Js.truthy (body_title (req_body req)) && Js.truthy (body_description (req_body req)) = true ->
  Js.truthy (option_map path (req_file req)) = false ->
  refusedAfterRead updateVideo req w 400 "thumbnail is required".
Proof.
  intros Hw Hf Ho Ht Hp.
  pose proof (found_is_valid _ Hw Hf) as Hv.
  unfold refusedAfterRead, alone, updateVideo. cbn zeta.
  rewrite Hv, Ht. step. rewrite Hf. step.
  rewrite Ho, differs_false. step. rewrite Hp. reflexivity.
Qed.

Lemma updateVideo_needs_thumbnail_witness :
  refusedAfterRead updateVideo (Sample.withFile Sample.aliceUpdates None) Sample.world
                   400 "thumbnail is required".
Proof.
  apply (@updateVideo_needs_thumbnail (Sample.withFile Sample.aliceUpdates None)
           Sample.world Sample.video1);
    [exact sample_validIds | reflexivity | reflexivity | reflexivity | reflexivity].
Defined.

(** X11: when the upload of the new thumbnail gives no result, the owner's
    update is refused with 400 after the read and the upload attempt; the
    record is not written and the old thumbnail is not deleted. *)
Theorem updateVideo_upload_fails (req : Request) w v :
  validIds w ->
  findVideo (toObjectId (req_videoId req)) (videos w) = Some v ->
  req_user req = Some (owner v) ->
  Js.truthy (body_title (req_body req)) && Js.truthy (body_description (req_body req)) = true ->
  Js.truthy (option_map path (req_file req)) = true ->
  snd (upload w (str (option_map path (req_file req)))) = None ->
  alone (updateVideo req) w =
  {| final := w;
     trace := [Issued (Video_findById (req_videoId req));
               Issued (uploadOnCloudinary (str (option_map path (req_file req))))];
     outcome := Threw (ApiError 400 "thumbnail not found") |}.
Proof.
  intros Hw Hf Ho Ht Hp Hu.
  pose proof (found_is_valid _ Hw Hf) as Hv.
  unfold alone, updateVideo. cbn zeta.
  rewrite Hv, Ht. step. rewrite Hf. step.
  rewrite Ho, differs_false. step. rewrite Hp. step.
  rewrite Hu. step. rewrite (upload_none _ _ Hu). reflexivity.
Qed.

Lemma updateVideo_upload_fails_witness :
  alone (updateVideo (Sample.withFile Sample.aliceUpdates (Some {| path := "/tmp/gone.png" |})))
        Sample.world =
  {| final := Sample.world;
     trace := [Issued (Video_findById Sample.v1);
               Issued (uploadOnCloudinary "/tmp/gone.png")];
     outcome := Threw (ApiError 400 "thumbnail not found") |}.
Proof.
  apply (@updateVideo_upload_fails
           (Sample.withFile Sample.aliceUpdates (Some {| path := "/tmp/gone.png" |}))
           Sample.world Sample.video1);
    [exact sample_validIds | reflexivity | reflexivity | reflexivity | reflexivity
     | reflexivity].
Defined.

Lemma upload_refused w p : refused (fst (upload w p)) = refused w.
Proof. unfold upload. destruct (find _ (staged w)) as [[q seconds]|]; reflexivity. Qed.

Lemma upload_searchIndex w p : searchIndex (fst (upload w p)) = searchIndex w.
Proof. unfold upload. destruct (find _ (staged w)) as [[q seconds]|]; reflexivity. Qed.

(** X12: with no other request in flight, the owner's update with a staged
    thumbnail answers 200 with the stored record: title, description and
    thumbnail are the new ones and every other field is as before.  The
    deletion of the old thumbnail is issued after the write; the old thumbnail
    is gone from the media store unless the store fails to delete it, and the
    new one is in the store whenever its storage id is not the old one's. *)
Theorem updateVideo_succeeds (req : Request) w v w1 up :
  validIds w ->
  findVideo (toObjectId (req_videoId req)) (videos w) = Some v ->
  req_user req = Some (owner v) ->
  Js.truthy (body_title (req_body req)) && Js.truthy (body_description (req_body req)) = true ->
  Js.truthy (option_map path (req_file req)) = true ->
  upload w (str (option_map path (req_file req))) = (w1, Some up) ->
  let r := alone (updateVideo req) w in
  let thumb := {| url := up_url up; public_id := up_public_id up |} in
  let change := SetDetails (str (body_title (req_body req)))
                           (str (body_description (req_body req))) thumb in
  let v' := applyUpdate change v in
  outcome r = videoUpdated (DVideo v') /\
  trace r = [Issued (Video_findById (req_videoId req));
             Issued (uploadOnCloudinary (str (option_map path (req_file req))));
             Issued (Video_findByIdAndUpdate (req_videoId req) change true);
             Issued (deleteOnCloudinary (public_id (thumbnail v)))] /\
  findVideo (toObjectId (req_videoId req)) (videos (final r)) = Some v' /\
  (_id v' = _id v /\ owner v' = owner v /\ views v' = views v /\
   isPublished v' = isPublished v /\ videoFile v' = videoFile v /\
   duration v' = duration v /\ createdAt v' = createdAt v) /\
  (~ In (public_id (thumbnail v)) (refused w) ->
   ~ In (public_id (thumbnail v)) (cloud (final r))) /\
  (up_public_id up <> public_id (thumbnail v) -> In (up_public_id up) (cloud (final r))).
Proof.
  intros Hw Hf Ho Ht Hp Hu r thumb change v'.
  pose proof (found_is_valid _ Hw Hf) as Hv.
  destruct (upload_some _ _ Hu) as (Hvs & _ & _ & _ & Hc).
  assert (Hrf : refused w1 = refused w)
    by (rewrite <- (upload_refused w (str (option_map path (req_file req)))), Hu;
        reflexivity).
  assert (Hr : r = alone (updateVideo req) w) by reflexivity.
  unfold alone, updateVideo in Hr. cbn zeta in Hr.
  rewrite Hv, Ht in Hr. cbn [negb run bind throwIf await handle interfere hd tl fst snd] in Hr.
  rewrite Hf in Hr. cbn [negb run bind throwIf await handle interfere hd tl fst snd] in Hr.
  rewrite Ho, differs_false, Hp in Hr.
  cbn [negb run bind throwIf await handle interfere hd tl fst snd] in Hr.
  rewrite Hu in Hr. cbn [negb run bind throwIf await handle interfere hd tl fst snd] in Hr.
  rewrite Hvs, Hf in Hr. unfold truthyObject in Hr.
  cbn [negb run bind throwIf await send handle interfere hd tl fst snd final trace outcome]
    in Hr.
  fold thumb change v' in Hr.
  set (w2 := with_videos w1 (updateVideoIn (toObjectId (req_videoId req)) change (videos w)))
    in Hr.
  destruct (destroy_frame w2 (public_id (thumbnail v))) as (Hv3 & _).
  rewrite Hr. cbn [final trace outcome].
  split; [reflexivity|]. split; [reflexivity|].
  split; [rewrite Hv3; unfold w2; cbn [videos with_videos];
          rewrite findVideo_updateVideoIn, Hf; reflexivity|].
  split; [repeat split|].
  split.
  - intros Hn. apply destroy_gone. unfold w2. cbn [refused with_videos]. now rewrite Hrf.
  - intros Hne. apply destroy_keeps; [|exact Hne].
    unfold w2. cbn [cloud with_videos]. rewrite Hc. apply in_or_app. right. now left.
Qed.

Lemma updateVideo_succeeds_witness :
  exists v',
    outcome (alone (updateVideo Sample.aliceUpdates) Sample.world)
      = videoUpdated (DVideo v') /\
    title v' = "t" /\ description v' = "d" /\ views v' = 7 /\
    ~ In "thumb1" (cloud (final (alone (updateVideo Sample.aliceUpdates) Sample.world))) /\
    In (public_id (thumbnail v'))
       (cloud (final (alone (updateVideo Sample.aliceUpdates) Sample.world))).
Proof.
  edestruct (@updateVideo_succeeds Sample.aliceUpdates Sample.world Sample.video1)
    as (Ho & _ & _ & Hk & Hn & Hi);
    [exact sample_validIds | reflexivity | reflexivity | reflexivity | reflexivity
     | reflexivity | ].
  eexists. split; [exact Ho|]. split; [reflexivity|]. split; [reflexivity|].
  split; [reflexivity|].
  split; [refine (Hn _); cbn; tauto | apply Hi; discriminate].
Defined.

(** ** What a delete and a toggle leave alone *)

Lemma findVideo_removeVideo_other id id' vs :
  id' <> id -> findVideo id' (removeVideo id vs) = findVideo id' vs.
Proof.
  intros Hne. unfold findVideo. induction vs as [|x r IH]; [reflexivity|].
  cbn [removeVideo find]. destruct (hasId id x) eqn:E.
  - unfold hasId in *. apply String.eqb_eq in E.
    destruct (String.eqb_spec (_id x) id'); [congruence | reflexivity].
  - cbn [find]. now rewrite IH.
Qed.

Lemma findVideo_updateVideoIn_other id id' u vs :
  id' <> id -> findVideo id' (updateVideoIn id u vs) = findVideo id' vs.
Proof.
  intros Hne. unfold findVideo. induction vs as [|x r IH]; [reflexivity|].
  cbn [updateVideoIn find]. destruct (hasId id x) eqn:E.
  - cbn [find]. unfold hasId in *. rewrite applyUpdate_id.
    apply String.eqb_eq in E.
    destruct (String.eqb_spec (_id x) id'); [congruence | reflexivity].
  - cbn [find]. now rewrite IH.
Qed.

(** X13: the owner's delete touches nothing but the video: every other video
    is found as before, the users are as before, a like or a comment on
    another video stays, and so does every asset other than the two of the
    video. *)
Theorem deleteVideo_spares_the_rest (req : Request) w v :
  validIds w ->
  findVideo (toObjectId (req_videoId req)) (videos w) = Some v ->
  req_user req = Some (owner v) ->
  let w' := final (alone (deleteVideo req) w) in
  let V := toObjectId (req_videoId req) in
  (forall id, id <> V -> findVideo id (videos w') = findVideo id (videos w)) /\
  users w' = users w /\
  (forall l, In l (likes w) -> like_video l <> V -> In l (likes w')) /\
  (forall c, In c (comments w) -> comment_video c <> V -> In c (comments w')) /\
  (forall a, In a (cloud w) -> a <> public_id (thumbnail v) ->
             a <> public_id (videoFile v) -> In a (cloud w')).
Proof.
  intros Hw Hf Ho w' V.
  pose proof (found_is_valid _ Hw Hf) as Hv.
  unfold w'. rewrite (deleteVideo_run req w Hv Hf Ho). cbn zeta.
  cbn [final handle fst videos users cloud likes comments with_likes with_comments].
  set (w1 := with_videos w (removeVideo (toObjectId (req_videoId req)) (videos w))).
  set (w2 := fst (destroy w1 (public_id (thumbnail v)))).
  destruct (destroy_frame w1 (public_id (thumbnail v))) as (Hv2 & Hu2 & Hl2 & Hc2 & _).
  destruct (destroy_frame w2 (public_id (videoFile v))) as (Hv3 & Hu3 & Hl3 & Hc3 & _).
  fold w2 in Hv2, Hu2, Hl2, Hc2.
  split; [intros id Hne; rewrite Hv3, Hv2; now apply findVideo_removeVideo_other|].
  split; [rewrite Hu3, Hu2; reflexivity|].
  split; [|split].
  - intros l Hl Hne. apply filter_In. split; [rewrite Hl3, Hl2; exact Hl|].
    destruct (String.eqb_spec (like_video l) (toObjectId (req_videoId req)));
      [contradiction | reflexivity].
  - intros c Hc Hne. apply filter_In. split; [rewrite Hc3, Hc2; exact Hc|].
    destruct (String.eqb_spec (comment_video c) (toObjectId (req_videoId req)));
      [contradiction | reflexivity].
  - intros a Ha Ht Hfl. apply destroy_keeps; [|exact Hfl].
    apply destroy_keeps; [exact Ha | exact Ht].
Qed.

Lemma deleteVideo_spares_the_rest_witness :
  findVideo Sample.v2 (videos (final (alone (deleteVideo Sample.aliceOnV1) Sample.world)))
    = Some Sample.video2 /\
  users (final (alone (deleteVideo Sample.aliceOnV1) Sample.world)) = users Sample.world /\
  In "thumb2" (cloud (final (alone (deleteVideo Sample.aliceOnV1) Sample.world))).
Proof.
  destruct (@deleteVideo_spares_the_rest Sample.aliceOnV1 Sample.world Sample.video1)
    as (Hv & Hu & _ & _ & Hc);
    [exact sample_validIds | reflexivity | reflexivity |].
  split; [rewrite Hv; [reflexivity | discriminate]|].
  split; [exact Hu|].
  apply Hc; [cbn; tauto | discriminate | discriminate].
Defined.

(** X14: once the owner has deleted a video, a second delete of it answers
    400 "video not found" and a publish-toggle answers 404; neither changes
    anything. *)
Theorem deleteVideo_then_again (req : Request) w v :
  validIds w ->
  NoDup (map _id (videos w)) ->
  findVideo (toObjectId (req_videoId req)) (videos w) = Some v ->
  req_user req = Some (owner v) ->
  let w' := final (alone (deleteVideo req) w) in
  refusedAfterRead deleteVideo req w' 400 "video not found" /\
  refusedAfterRead togglePublishStatus req w' 404 "Video not found".
Proof.
  intros Hw Hnd Hf Ho w'.
  pose proof (found_is_valid _ Hw Hf) as Hv.
  assert (Hgone : findVideo (toObjectId (req_videoId req)) (videos w') = None).
  { unfold w'. rewrite (deleteVideo_run req w Hv Hf Ho). cbn zeta.
    cbn [final handle fst videos with_likes with_comments].
    rewrite (proj1 (destroy_frame _ _)), (proj1 (destroy_frame _ _)).
    apply findVideo_removeVideo_unique, Hnd. }
  unfold refusedAfterRead, alone, deleteVideo, togglePublishStatus.
  cbn zeta. rewrite Hv. step. rewrite Hgone. split; reflexivity.
Qed.

Lemma deleteVideo_then_again_witness :
  refusedAfterRead deleteVideo Sample.aliceOnV1
                   (final (alone (deleteVideo Sample.aliceOnV1) Sample.world))
                   400 "video not found" /\
  refusedAfterRead togglePublishStatus Sample.aliceOnV1
                   (final (alone (deleteVideo Sample.aliceOnV1) Sample.world))
                   404 "Video not found".
Proof.
  apply (@deleteVideo_then_again Sample.aliceOnV1 Sample.world Sample.video1);
    [exact sample_validIds | exact sample_uniqueIds | reflexivity | reflexivity].
Defined.

(** X15: the owner's toggle changes the publish flag of that record and
    nothing else: its other fields, every other video, the users, likes,
    comments and the media store are as before. *)
Theorem togglePublishStatus_only_the_flag (req : Request) w v :
  validIds w ->
  findVideo (toObjectId (req_videoId req)) (videos w) = Some v ->
  req_user req = Some (owner v) ->
  let w' := final (alone (togglePublishStatus req) w) in
  let V := toObjectId (req_videoId req) in
  (exists v', findVideo V (videos w') = Some v' /\
              isPublished v' = negb (isPublished v) /\
              _id v' = _id v /\ title v' = title v /\ description v' = description v /\
              duration v' = duration v /\ videoFile v' = videoFile v /\
              thumbnail v' = thumbnail v /\ views v' = views v /\ owner v' = owner v /\
              createdAt v' = createdAt v) /\
  (forall id, id <> V -> findVideo id (videos w') = findVideo id (videos w)) /\
  users w' = users w /\ likes w' = likes w /\ comments w' = comments w /\
  cloud w' = cloud w.
Proof.
  intros Hw Hf Ho w' V.
  pose proof (found_is_valid _ Hw Hf) as Hv.
  unfold w'. rewrite (togglePublishStatus_run req w Hv Hf Ho). cbn zeta.
  cbn [final videos users likes comments cloud with_videos].
  split.
  - eexists. split; [rewrite findVideo_updateVideoIn, Hf; reflexivity|].
    repeat split.
  - split; [intros id Hne; now apply findVideo_updateVideoIn_other|].
    repeat split.
Qed.

Lemma togglePublishStatus_only_the_flag_witness :
  findVideo Sample.v2 (videos (final (alone (togglePublishStatus Sample.aliceOnV1)
                                            Sample.world)))
    = Some Sample.video2 /\
  cloud (final (alone (togglePublishStatus Sample.aliceOnV1) Sample.world))
    = cloud Sample.world.
Proof.
  destruct (@togglePublishStatus_only_the_flag Sample.aliceOnV1 Sample.world Sample.video1)
    as (_ & Hv & _ & _ & _ & Hc);
    [exact sample_validIds | reflexivity | reflexivity |].
  split; [rewrite Hv; [reflexivity | discriminate] | exact Hc].
Defined.

(** ** The detail document and what a detail request leaves alone *)

Lemma memberId_In x l : memberId (Some x) l = true <-> In x l.
Proof. cbn [memberId]. apply existsb_eqb_In. Qed.

(** X16: the detail answer reports the view count read before this request's
    own increment: one less than what the store holds afterwards. *)
Theorem getVideoById_reports_earlier_views (req : Request) w uid u v :
  isValidObjectId (Some (req_videoId req)) = true ->
  req_user req = Some uid ->
  isValidObjectId (Some uid) = true ->
  findUser uid (users w) = Some u ->
  findVideo (toObjectId (req_videoId req)) (videos w) = Some v ->
  let r := alone (getVideoById req) w in
  exists d v',
    outcome r = detailsFetched (DDetail d) /\
    d_id d = _id v /\ d_views d = views v /\
    findVideo (toObjectId (req_videoId req)) (videos (final r)) = Some v' /\
    views v' = d_views d + 1.
Proof.
  intros Hv Hu Hvu Hfu Hf r.
  destruct (getVideoById_final req w Hv Hu Hvu Hfu) as [Hv1 _].
  rewrite Hf in Hv1. cbn [option_map] in Hv1.
  destruct (aggregateDetail_found w (req_videoId req) (Some uid) Hf) as [rest Ha].
  exists (detailOf w (Some uid) v), (applyUpdate (IncViews 1) v).
  split.
  - unfold r. rewrite (getVideoById_run req w Hv Hu Hvu). cbn zeta.
    cbn [outcome]. rewrite Ha. reflexivity.
  - split; [reflexivity|]. split; [reflexivity|]. split; [exact Hv1 | reflexivity].
Qed.

Lemma getVideoById_reports_earlier_views_witness :
  exists d v',
    outcome (alone (getVideoById Sample.bobWatches) Sample.world)
      = detailsFetched (DDetail d) /\
    d_views d = 7 /\
    findVideo Sample.v1 (videos (final (alone (getVideoById Sample.bobWatches) Sample.world)))
      = Some v' /\
    views v' = 8.
Proof.
  destruct (@getVideoById_reports_earlier_views Sample.bobWatches Sample.world Sample.bob
              Sample.userB Sample.video1)
    as (d & v' & Ho & _ & Hd & Hf & Hv); try reflexivity.
  exists d, v'. split; [exact Ho|]. split; [exact Hd|]. split; [exact Hf|].
  rewrite Hv, Hd. reflexivity.
Defined.

(** X17: in the detail answer the like count is the number of likes that
    reference the video, [isLiked] tells whether one of them is the acting
    user's, and the owner entry is present exactly when the owner is a stored
    user. *)
Theorem getVideoById_like_fields (req : Request) w uid v :
  isValidObjectId (Some (req_videoId req)) = true ->
  req_user req = Some uid ->
  isValidObjectId (Some uid) = true ->
  findVideo (toObjectId (req_videoId req)) (videos w) = Some v ->
  exists d,
    outcome (alone (getVideoById req) w) = detailsFetched (DDetail d) /\
    likesCount d
      = Z.of_nat (List.length (filter (fun l => String.eqb (like_video l) (_id v)) (likes w))) /\
    (isLiked d = true <->
     exists l, In l (likes w) /\ like_video l = _id v /\ likedBy l = uid) /\
    (d_owner d = None <-> findUser (owner v) (users w) = None).
Proof.
  intros Hv Hu Hvu Hf.
  destruct (aggregateDetail_found w (req_videoId req) (Some uid) Hf) as [rest Ha].
  exists (detailOf w (Some uid) v). split.
  - rewrite (getVideoById_run req w Hv Hu Hvu). cbn zeta.
    cbn [outcome]. rewrite Ha. reflexivity.
  - split; [reflexivity|]. split.
    + cbn [detailOf isLiked]. rewrite memberId_In, in_map_iff. split.
      * intros [l [Hl Hin]]. apply filter_In in Hin. destruct Hin as [Hin E].
        apply String.eqb_eq in E. exists l. repeat split; assumption.
      * intros [l [Hin [E Hl]]]. exists l. split; [exact Hl|].
        apply filter_In. split; [exact Hin|]. now apply String.eqb_eq.
    + cbn [detailOf d_owner]. unfold findUser.
      rewrite <- filter_head_find.
      destruct (filter (isUser (owner v)) (users w)); cbn; split; congruence.
Qed.

Lemma getVideoById_like_fields_witness :
  exists d,
    outcome (alone (getVideoById Sample.bobWatches) Sample.world)
      = detailsFetched (DDetail d) /\
    likesCount d = 1 /\ isLiked d = true.
Proof.
  destruct (@getVideoById_like_fields Sample.bobWatches Sample.world Sample.bob
              Sample.video1)
    as (d & Ho & Hc & Hl & _); try reflexivity.
  exists d. split; [exact Ho|]. split; [exact Hc|].
  apply Hl. eexists. split; [left; reflexivity|]. split; reflexivity.
Defined.

Lemma findUser_updateUserIn_other id id' u us :
  id' <> id -> findUser id' (updateUserIn id u us) = findUser id' us.
Proof.
  intros Hne. unfold findUser. induction us as [|x r IH]; [reflexivity|].
  cbn [updateUserIn find]. destruct (isUser id x) eqn:E.
  - cbn [find]. unfold isUser in *. rewrite applyUserUpdate_id.
    apply String.eqb_eq in E.
    destruct (String.eqb_spec (user_id x) id'); [congruence | reflexivity].
  - cbn [find]. now rewrite IH.
Qed.

(** X18: a detail request writes the view count of that video and the watch
    history of the acting user, and nothing else: every other field of the
    video record, every other video and user, the identifier, name and avatar
    of the acting user, the likes, comments, subscriptions and media store are
    as before. *)
Theorem getVideoById_writes_two_fields (req : Request) w uid u :
  isValidObjectId (Some (req_videoId req)) = true ->
  req_user req = Some uid ->
  isValidObjectId (Some uid) = true ->
  findUser uid (users w) = Some u ->
  let w' := final (alone (getVideoById req) w) in
  let V := toObjectId (req_videoId req) in
  (forall id, id <> V -> findVideo id (videos w') = findVideo id (videos w)) /\
  (forall v, findVideo V (videos w) = Some v ->
     exists v', findVideo V (videos w') = Some v' /\
                _id v' = _id v /\
                title v' = title v /\ description v' = description v /\
                duration v' = duration v /\
                videoFile v' = videoFile v /\ thumbnail v' = thumbnail v /\
                isPublished v' = isPublished v /\ owner v' = owner v /\
                createdAt v' = createdAt v) /\
  (forall id, id <> uid -> findUser id (users w') = findUser id (users w)) /\
  (exists u', findUser uid (users w') = Some u' /\
              user_id u' = user_id u /\
              username u' = username u /\ avatar u' = avatar u) /\
  likes w' = likes w /\ comments w' = comments w /\
  subscriptions w' = subscriptions w /\ cloud w' = cloud w.
Proof.
  intros Hv Hu Hvu Hfu w' V.
  destruct (getVideoById_final req w Hv Hu Hvu Hfu) as [Hv1 Hu1].
  fold w' in Hv1, Hu1.
  assert (Hw' : w' = final (alone (getVideoById req) w)) by reflexivity.
  rewrite (getVideoById_run req w Hv Hu Hvu) in Hw'. cbn zeta in Hw'.
  cbn [final handle] in Hw'.
  assert (Hus : users (fst (match findVideo (toObjectId (req_videoId req)) (videos w) with
                            | Some v0 =>
                                (with_videos w (updateVideoIn (toObjectId (req_videoId req))
                                                              (IncViews 1) (videos w)),
                                 Some (if false then applyUpdate (IncViews 1) v0 else v0))
                            | None => (w, None)
                            end)) = users w)
    by (destruct (findVideo _ (videos w)); reflexivity).
  rewrite Hus, Hfu in Hw'. cbn [fst] in Hw'.
  split; [|split; [|split; [|split]]].
  - intros id Hne. rewrite Hw'. cbn [videos with_users].
    destruct (findVideo (toObjectId (req_videoId req)) (videos w)); cbn [fst videos with_videos];
      [now apply findVideo_updateVideoIn_other | reflexivity].
  - intros v Hf. unfold V in Hf. rewrite Hf in Hv1.
    eexists. split; [exact Hv1|]. repeat split.
  - intros id Hne. rewrite Hw'. cbn [users with_users].
    destruct (findVideo (toObjectId (req_videoId req)) (videos w)); cbn [fst users with_videos];
      now apply findUser_updateUserIn_other.
  - eexists. split; [exact Hu1|]. repeat split.
  - rewrite Hw'. cbn [likes comments subscriptions cloud with_users].
    destruct (findVideo (toObjectId (req_videoId req)) (videos w)); repeat split.
Qed.

Lemma getVideoById_writes_two_fields_witness :
  findVideo Sample.v2 (videos (final (alone (getVideoById Sample.bobWatches) Sample.world)))
    = Some Sample.video2 /\
  findUser Sample.alice (users (final (alone (getVideoById Sample.bobWatches) Sample.world)))
    = Some Sample.userA /\
  cloud (final (alone (getVideoById Sample.bobWatches) Sample.world)) = cloud Sample.world.
Proof.
  destruct (@getVideoById_writes_two_fields Sample.bobWatches Sample.world Sample.bob
              Sample.userB)
    as (Hv & _ & Hu & _ & _ & _ & _ & Hc); try reflexivity.
  split; [rewrite Hv; [reflexivity | discriminate]|].
  split; [rewrite Hu; [reflexivity | discriminate] | exact Hc].
Defined.

(** ** Ingestion *)

(** X19: a title or a description that is present and blank after trimming is
    refused with 400 before anything is uploaded or stored. *)
Theorem publishAVideo_blank_field (req : Request) :
  (exists s, body_title (req_body req) = Some s /\ Js.trim s = "") \/
  (exists s, body_description (req_body req) = Some s /\ Js.trim s = "") ->
  refusedAtOnce (publishAVideo req) 400 "All fields are required".
Proof.
  intros H sched w. unfold publishAVideo. cbn zeta. cbn [existsb].
  destruct H as [[s [-> E]]|[s [-> E]]]; cbn [blank]; rewrite E.
  - reflexivity.
  - cbn [String.eqb]. rewrite orb_true_r. reflexivity.
Qed.

Lemma publishAVideo_blank_field_witness :
  refusedAtOnce (publishAVideo Sample.publishBlankTitle) 400 "All fields are required" /\
  refusedAtOnce (publishAVideo Sample.publishNoBreakSpaceTitle)
                400 "All fields are required".
Proof.
  split.
  - apply publishAVideo_blank_field. left. exists "   ". split; reflexivity.
  - apply publishAVideo_blank_field. left. exists (" " ++ Sample.noBreakSpace)%string.
    split; reflexivity.
Defined.

(** X20: with no blank field and no files at all in the request, ingestion
    is refused with 400 for the missing video file before anything is
    uploaded. *)
Theorem publishAVideo_no_files (req : Request) :
  blank (body_title (req_body req)) = false ->
  blank (body_description (req_body req)) = false ->
  req_files req = None ->
  refusedAtOnce (publishAVideo req) 400 "video file local path is required".
Proof.
  intros Ht Hd Hf sched w. unfold publishAVideo. cbn zeta. cbn [existsb].
  rewrite Ht, Hd, Hf. reflexivity.
Qed.

Lemma publishAVideo_no_files_witness :
  refusedAtOnce (publishAVideo (Sample.withFiles Sample.publishNoThumbnail None))
                400 "video file local path is required".
Proof.
  apply publishAVideo_no_files; reflexivity.
Defined.

Lemma lower_hexDigit k : (k < 16)%nat -> Js.lower (hexDigit k) = hexDigit k.
Proof.
  intros H. do 16 (destruct k as [|k]; [reflexivity|]). lia.
Qed.

Lemma lower_hex width : forall n acc,
  Js.map Js.lower acc = acc -> Js.map Js.lower (hex width n acc) = hex width n acc.
Proof.
  induction width as [|width IH]; intros n acc Hacc; cbn [hex]; [exact Hacc|].
  apply IH. cbn [Js.map]. rewrite Hacc, lower_hexDigit; [reflexivity|].
  apply Nat.mod_upper_bound. discriminate.
Qed.

Lemma toObjectId_freshId w : toObjectId (freshId w) = freshId w.
Proof. unfold toObjectId, freshId. now apply lower_hex. Qed.

Lemma findVideo_last id vs v : _id v = id -> findVideo id (vs ++ [v]) <> None.
Proof.
  intros E. unfold findVideo. induction vs as [|x r IH]; cbn [app find].
  - unfold hasId. rewrite E, String.eqb_refl. discriminate.
  - destruct (hasId id x); [discriminate | exact IH].
Qed.

Lemma upload_videos w p : videos (fst (upload w p)) = videos w.
Proof. unfold upload. destruct (find _ (staged w)) as [[q seconds]|]; reflexivity. Qed.

Lemma upload_keeps_assets w p a : In a (cloud w) -> In a (cloud (fst (upload w p))).
Proof.
  unfold upload. destruct (find _ (staged w)) as [[q seconds]|]; cbn; [|tauto].
  intros H. apply in_or_app. now left.
Qed.

Lemma blank_false s : Js.trim s <> "" -> blank (Some s) = false.
Proof. intros H. cbn [blank]. now apply String.eqb_neq. Qed.

Lemma truthy_path s : s <> "" -> Js.truthy (Some s) = true.
Proof. destruct s; [congruence | reflexivity]. Qed.

Lemma publishAVideo_run (req : Request) w t d fs vf th restv restt uid w1 upv w2 upt :
  body_title (req_body req) = Some t -> Js.trim t <> "" ->
  body_description (req_body req) = Some d -> Js.trim d <> "" ->
  req_files req = Some fs ->
  files_videoFile fs = Some (vf :: restv) -> files_thumbnail fs = Some (th :: restt) ->
  path vf <> "" -> path th <> "" ->
  req_user req = Some uid ->
  upload w (path vf) = (w1, Some upv) ->
  upload w1 (path th) = (w2, Some upt) ->
  let v := ingested w2 t d uid upv upt in
  exists nv,
    nv_isPublished nv = false /\
    alone (publishAVideo req) w =
    {| final := tick (with_videos w2 (videos w2 ++ [v]));
       trace := [Issued (uploadOnCloudinary (path vf));
                 Issued (uploadOnCloudinary (path th));
                 Issued (Video_create nv);
                 Issued (Video_findById (_id v))];
       outcome := videoUploaded v |}.
Proof.
  intros Ht Htt Hd Hdd Hfs Hvf Hth Hpv Hpt Hu Hu1 Hu2 v.
  eexists. split; [|].
  2:{ unfold alone, publishAVideo. cbn zeta. cbn [existsb].
      rewrite Ht, Hd, (@blank_false t Htt), (@blank_false d Hdd), Hfs. cbn [orb].
      step. unfold firstPath. rewrite Hvf, Hth. step.
      rewrite (@truthy_path _ Hpv), (@truthy_path _ Hpt). step. cbn [str].
      rewrite Hu1. step. rewrite Hu2. step.
      rewrite Hu. unfold createVideo.
      cbn [nv_title nv_description nv_owner nv_duration nv_videoFile nv_thumbnail
           nv_isPublished fst snd].
      step. cbn [_id videos tick with_videos].
      rewrite toObjectId_freshId.
      destruct (findVideo (freshId w2) (videos w2 ++ [_])) eqn:E.
      - cbn [isNone]. step. reflexivity.
      - exfalso. revert E. apply findVideo_last. reflexivity. }
  reflexivity.
Qed.



(** X22: when an upload gives no result the ingestion is refused with 400
    after both uploads were attempted, and no record is created.  When it is
    the thumbnail that failed, the video file already uploaded stays in the
    media store: nothing is rolled back. *)
Theorem publishAVideo_upload_fails (req : Request) w fs vf th restv restt :
  blank (body_title (req_body req)) = false ->
  blank (body_description (req_body req)) = false ->
  req_files req = Some fs ->
  files_videoFile fs = Some (vf :: restv) -> files_thumbnail fs = Some (th :: restt) ->
  path vf <> "" -> path th <> "" ->
  let r := alone (publishAVideo req) w in
  (snd (upload w (path vf)) = None ->
   outcome r = Threw (ApiError 400 "video not found") /\
   trace r = [Issued (uploadOnCloudinary (path vf)); Issued (uploadOnCloudinary (path th))] /\
   videos (final r) = videos w) /\
  (forall w1 upv,
     upload w (path vf) = (w1, Some upv) ->
     snd (upload w1 (path th)) = None ->
     outcome r = Threw (ApiError 400 "thumbnail not found") /\
     trace r = [Issued (uploadOnCloudinary (path vf)); Issued (uploadOnCloudinary (path th))] /\
     videos (final r) = videos w /\
     In (up_public_id upv) (cloud (final r))).
Proof.
  intros Ht Hd Hfs Hvf Hth Hpv Hpt r.
  assert (Hr : r = alone (publishAVideo req) w) by reflexivity.
  unfold alone, publishAVideo in Hr. cbn zeta in Hr. cbn [existsb] in Hr.
  rewrite Ht, Hd, Hfs in Hr. cbn [orb] in Hr.
  cbn [negb run bind throwIf await handle interfere hd tl fst snd] in Hr.
  unfold firstPath in Hr. rewrite Hvf, Hth in Hr.
  cbn [negb run bind throwIf await handle interfere hd tl fst snd] in Hr.
  rewrite (@truthy_path _ Hpv), (@truthy_path _ Hpt) in Hr.
  cbn [negb run bind throwIf await handle interfere hd tl fst snd str] in Hr.
  split.
  - intros Hn. rewrite Hn in Hr.
    cbn [negb run bind throwIf await handle interfere hd tl fst snd final trace outcome]
      in Hr.
    rewrite Hr. cbn [final trace outcome].
    split; [reflexivity|]. split; [reflexivity|].
    now rewrite !upload_videos.
  - intros w1 upv Hu1 Hn. rewrite Hu1 in Hr. cbn [fst snd] in Hr. rewrite Hn in Hr.
    cbn [negb run bind throwIf await handle interfere hd tl fst snd final trace outcome]
      in Hr.
    rewrite Hr. cbn [final trace outcome].
    destruct (upload_some _ _ Hu1) as (Hv1 & _ & _ & _ & Hc1).
    split; [reflexivity|]. split; [reflexivity|].
    split; [now rewrite upload_videos|].
    apply upload_keeps_assets. rewrite Hc1. apply in_or_app. right. now left.
Qed.

Lemma publishAVideo_upload_fails_witness :
  outcome (alone (publishAVideo Sample.publishLostThumbnail) Sample.world)
    = Threw (ApiError 400 "thumbnail not found") /\
  videos (final (alone (publishAVideo Sample.publishLostThumbnail) Sample.world))
    = videos Sample.world /\
  In (freshId Sample.world)
     (cloud (final (alone (publishAVideo Sample.publishLostThumbnail) Sample.world))).
Proof.
  edestruct (@publishAVideo_upload_fails Sample.publishLostThumbnail Sample.world)
    as (_ & H);
    [reflexivity | reflexivity | reflexivity | reflexivity | reflexivity
     | discriminate | discriminate | ].
  edestruct H as (Ho & _ & Hv & Hc); [reflexivity | reflexivity |].
  split; [exact Ho|]. split; [exact Hv | exact Hc].
Defined.

(** Every document of an aggregation carries a stored video when the text
    index answers with videos it was given. *)
Lemma runStage_from_store w st ds :
  searchSound w ->
  Forall (fun d => In (doc d) (videos w)) ds ->
  Forall (fun d => In (doc d) (videos w)) (runStage w st ds).
Proof.
  intros Hs Hds.
  assert (K : keepsVideos st = true ->
              Forall (fun d => In (doc d) (videos w)) (runStage w st ds)).
  { intros K. apply (@runStage_Forall (fun d => In (doc d) (videos w))).
    - intros a b E H. now rewrite <- E.
    - exact K.
    - exact Hds. }
  destruct st; try (apply K; reflexivity).
  cbn [runStage]. rewrite Forall_forall in *. intros d Hd.
  apply in_map_iff in Hd. destruct Hd as [x [<- Hx]]. cbn [doc].
  apply Hs in Hx. apply in_map_iff in Hx. destruct Hx as [d0 [<- Hd0]].
  apply Hds, Hd0.
Qed.

Lemma aggregate_from_store w pipeline :
  searchSound w -> Forall (fun d => In (doc d) (videos w)) (aggregate w pipeline).
Proof.
  intros Hs. unfold aggregate.
  assert (H0 : Forall (fun d => In (doc d) (videos w))
                      (map (fun v => {| doc := v; ownerDetails := [] |}) (videos w))).
  { rewrite Forall_forall. intros d Hd. apply in_map_iff in Hd.
    destruct Hd as [x [<- Hx]]. exact Hx. }
  revert H0. generalize (map (fun v => {| doc := v; ownerDetails := [] |}) (videos w)).
  induction pipeline as [|st rest IH]; intros ds Hds; cbn [fold_left]; [exact Hds|].
  apply IH. now apply runStage_from_store.
Qed.

(** X23: the record an ingestion has just created is in no page of any list
    request answered next, whatever that request asks for: no document of the
    page carries its identifier.  The text index is taken to answer with
    videos it was given, and the identifier handed to the new record to be
    unused. *)
Theorem publishAVideo_then_hidden
        (req : Request) w t d fs vf th restv restt uid w1 upv w2 upt (req' : Request) r' :
  body_title (req_body req) = Some t -> Js.trim t <> "" ->
  body_description (req_body req) = Some d -> Js.trim d <> "" ->
  req_files req = Some fs ->
  files_videoFile fs = Some (vf :: restv) -> files_thumbnail fs = Some (th :: restt) ->
  path vf <> "" -> path th <> "" ->
  req_user req = Some uid ->
  upload w (path vf) = (w1, Some upv) ->
  upload w1 (path th) = (w2, Some upt) ->
  searchSound w ->
  (forall x, In x (videos w) -> _id x <> freshId w2) ->
  outcome (alone (getAllVideos req') (final (alone (publishAVideo req) w))) = Sent r' ->
  exists v p,
    outcome (alone (publishAVideo req) w) = videoUploaded v /\
    In v (videos (final (alone (publishAVideo req) w))) /\
    data (json r') = DPage p /\
    forall x, In x (docs p) -> _id (doc x) <> _id v.
Proof.
  intros Ht Htt Hd Hdd Hfs Hvf Hth Hpv Hpt Hu Hu1 Hu2 Hsound Hfresh Hl.
  destruct (publishAVideo_run req w Ht Htt Hd Hdd Hfs Hvf Hth Hpv Hpt Hu Hu1 Hu2)
    as (nv & _ & Hr).
  destruct (getAllVideos_page req' _ Hl) as (pre & srt & o & Hp & _ & Hs).
  destruct (upload_some _ _ Hu1) as (Hv1 & _).
  destruct (upload_some _ _ Hu2) as (Hv2 & _).
  set (w' := final (alone (publishAVideo req) w)) in *.
  assert (Hw' : w' = tick (with_videos w2 (videos w2 ++ [ingested w2 t d uid upv upt])))
    by (unfold w'; rewrite Hr; reflexivity).
  assert (Hsound' : searchSound w').
  { intros q vs x. rewrite Hw'. cbn [searchIndex tick with_videos].
    replace w2 with (fst (upload w1 (path th))) by (rewrite Hu2; reflexivity).
    rewrite upload_searchIndex.
    replace w1 with (fst (upload w (path vf))) by (rewrite Hu1; reflexivity).
    rewrite upload_searchIndex. apply Hsound. }
  exists (ingested w2 t d uid upv upt). eexists.
  split; [rewrite Hr; reflexivity|].
  split; [rewrite Hw'; cbn [videos tick with_videos]; apply in_or_app; right; now left|].
  split; [exact Hp|].
  assert (Hpub : published (docs (paginate o
            (aggregate w' (((pre ++ [MatchIsPublished true]) ++ [srt])
                             ++ [LookupOwnerDetails; UnwindOwnerDetails]))))).
  { apply paginate_published. rewrite <- app_assoc. apply aggregate_published.
    rewrite Hs.
    destruct (Js.truthy (sortBy (req_query req')) && Js.truthy (sortType (req_query req')));
      reflexivity. }
  pose proof (@paginate_Forall _ o _ (@aggregate_from_store w'
                (((pre ++ [MatchIsPublished true]) ++ [srt])
                   ++ [LookupOwnerDetails; UnwindOwnerDetails]) Hsound')) as Hst.
  unfold published in Hpub. rewrite Forall_forall in Hpub, Hst.
  intros x Hx E. pose proof (Hpub x Hx) as Hxp. pose proof (Hst x Hx) as Hxs.
  rewrite Hw' in Hxs. cbn [videos tick with_videos] in Hxs.
  rewrite Hv2, Hv1 in Hxs. apply in_app_or in Hxs. destruct Hxs as [Hin|[Heq|[]]].
  - apply (Hfresh _ Hin). exact E.
  - rewrite <- Heq in Hxp. discriminate Hxp.
Qed.

Lemma sample_searchSound : searchSound Sample.world.
Proof. intros q vs x H. exact H. Defined.

Lemma publishAVideo_then_hidden_witness :
  exists r',
    outcome (alone (getAllVideos Sample.listByAlice)
                   (final (alone (publishAVideo Sample.publishBoth) Sample.world)))
      = Sent r' /\
    exists v p,
      outcome (alone (publishAVideo Sample.publishBoth) Sample.world) = videoUploaded v /\
      In v (videos (final (alone (publishAVideo Sample.publishBoth) Sample.world))) /\
      data (json r') = DPage p /\
      forall x, In x (docs p) -> _id (doc x) <> _id v.
Proof.
  eexists. split; [reflexivity|].
  eapply (@publishAVideo_then_hidden Sample.publishBoth Sample.world)
    with (req' := Sample.listByAlice);
    [reflexivity | discriminate | reflexivity | discriminate | reflexivity
     | reflexivity | reflexivity | discriminate | discriminate | reflexivity
     | reflexivity | reflexivity | exact sample_searchSound | | reflexivity].
  intros x Hx. cbn in Hx. destruct Hx as [<-|[<-|[]]]; vm_compute; discriminate.
Defined.
